(** * hop-js: the Ignite SDK and the Hop facade

    A shallow embedding of [src/sdks/ignite.ts], of the [Hop] aggregate
    class and of the earlier stand-alone [Ignite] class, together with
    the properties of the request dispatch and team-ID policy that the
    specification states about them.

    An asynchronous SDK method is a computation that may append
    requests to the log of the transport and either returns a value or
    throws.  The [APIClient], the identifier helpers and [parseSize]
    live outside the embedded sources; they enter as parameters of the
    sections below, or are modelled from the specification where a
    property is about them. *)

From Stdlib Require Import String Ascii List ZArith Bool Lia.
Import ListNotations.

Local Open Scope string_scope.
Local Open Scope Z_scope.

(** ** JavaScript values *)

(** Truthiness of a string: only the empty string is falsy. *)
Definition truthy (s : string) : bool := negb (s =? "")%string.

(** Truthiness of an optional string parameter: [undefined] is falsy. *)
Definition truthy_opt (o : option string) : bool :=
  match o with
  | Some s => truthy s
  | None => false
  end.

(** The value of an optional string parameter when it is truthy. *)
Definition truthy_value (o : option string) : option string :=
  match o with
  | Some s => if truthy s then Some s else None
  | None => None
  end.

(** Parsed JSON payloads, as returned by the transport. *)
#[local] Unset Elimination Schemes.
Inductive Json : Type :=
| JUndefined
| JNull
| JString (s : string)
| JNumber (z : Z)
| JArray (items : list Json)
| JObject (fields : list (string * Json)).
#[local] Set Elimination Schemes.

Fixpoint assoc {A : Type} (k : string) (l : list (string * A)) : option A :=
  match l with
  | [] => None
  | (k', v) :: l' => if (k =? k')%string then Some v else assoc k l'
  end.

(** ** Outcomes and asynchronous calls *)

Inductive Outcome (A : Type) : Type :=
| Returned (a : A)
| Thrown (message : string).

Arguments Returned {A} a.
Arguments Thrown {A} message.

Inductive Method : Type := GET | POST | PUT | PATCH | DELETE.

(** [API.Ignite.ContainerState]: the members the sources name. *)
Inductive ContainerState : Type := PENDING | RUNNING | STOPPED.

Record Resources : Type := { ram : string }.

(** [API.Ignite.DeploymentConfig]: the SDK reads [resources.ram] only;
    the other members are carried along untouched. *)
Record DeploymentConfig : Type :=
  { resources : Resources;
    other_members : list (string * Json) }.

Inductive Body : Type :=
| BodyConfig (config : DeploymentConfig)
| BodyState (state : ContainerState).

(** The mapping of path and query parameters, an object literal. *)
Definition Params : Type := list (string * string).

(** What an SDK method hands to the [APIClient]: the method, the path
    template, the optional body and the optional parameter object. *)
Record Request : Type :=
  { method : Method;
    path : string;
    body : option Body;
    query : option Params }.

(** An asynchronous call: it extends the log of dispatched requests and
    settles with an outcome. *)
Definition Call (A : Type) : Type := list Request -> Outcome A * list Request.

Definition ret {A : Type} (a : A) : Call A := fun log => (Returned a, log).

Definition throw {A : Type} (message : string) : Call A :=
  fun log => (Thrown message, log).

Definition bind {A B : Type} (m : Call A) (k : A -> Call B) : Call B :=
  fun log =>
    match m log with
    | (Returned a, log') => k a log'
    | (Thrown e, log') => (Thrown e, log')
    end.

Definition lift {A : Type} (o : Outcome A) : Call A := fun log => (o, log).

Declare Scope call_scope.
Delimit Scope call_scope with call.
Notation "x <- m ;; k" := (bind m (fun x => k))
  (at level 61, m at next level, right associativity) : call_scope.
Notation "m ;;; k" := (bind m (fun _ => k))
  (at level 61, right associativity) : call_scope.
Local Open Scope call_scope.

(** Object destructuring [const {k} = value]. *)
Definition destructure (k : string) (value : Json) : Outcome Json :=
  match value with
  | JObject fields =>
      match assoc k fields with
      | Some v => Returned v
      | None => Returned JUndefined
      end
  | JUndefined | JNull =>
      Thrown "TypeError: Cannot destructure property of undefined or null"
  | _ => Returned JUndefined
  end.

(** ** Identifiers and authorization *)

Inductive IdPrefix : Type := team | deployment | container | project | leap_token.

Inductive APIAuthorizationType : Type := bearer | pat | sk.

Definition is_sk (a : APIAuthorizationType) : bool :=
  match a with sk => true | _ => false end.

Definition is_bearer (a : APIAuthorizationType) : bool :=
  match a with bearer => true | _ => false end.

Definition is_pat (a : APIAuthorizationType) : bool :=
  match a with pat => true | _ => false end.

Definition prefix_name (p : IdPrefix) : string :=
  match p with
  | team => "team"
  | deployment => "deployment"
  | container => "container"
  | project => "project"
  | leap_token => "leap_token"
  end.

Definition auth_name (a : APIAuthorizationType) : string :=
  match a with
  | bearer => "bearer"
  | pat => "pat"
  | sk => "sk"
  end.

(** Modelled from the spec: [validateId] of [src/rest] is missing; the
    check "that [id]'s prefix matches the expected entity kind", on
    identifiers written [deployment_xxxx]. *)
Definition validateId_prefix (id : string) (kind : IdPrefix) : bool :=
  String.prefix (prefix_name kind ++ "_") id.

(** Modelled from the spec: [getIdPrefix] of [src/rest] is missing;
    "extracts the tag", the text before the first underscore. *)
Fixpoint getIdPrefix (id : string) : string :=
  match id with
  | EmptyString => EmptyString
  | String c rest =>
      if Ascii.eqb c "_"%char then EmptyString else String c (getIdPrefix rest)
  end.

(** Modelled from the spec: [APIClient.getAuthType] of [src/rest/client]
    is missing; "inspects the credential's shape/prefix and returns the
    scheme tag".  A credential of no known shape has no tag. *)
Definition getAuthType (authorization : string) : option APIAuthorizationType :=
  let p := getIdPrefix authorization in
  if (p =? "bearer")%string then Some bearer
  else if (p =? "pat")%string then Some pat
  else if (p =? "sk")%string then Some sk
  else None.

(** The state of an [APIClient] that the SDK classes read. *)
Record APIClient : Type :=
  { authType : APIAuthorizationType;
    baseUrl : string;
    authorization : string }.

(** Modelled from the spec: the constructor of [APIClient] is missing;
    the scheme tag "is fixed once at client construction". *)
Definition new_APIClient (baseUrl authorization : string) : option APIClient :=
  match getAuthType authorization with
  | Some tag =>
      Some {| authType := tag; baseUrl := baseUrl; authorization := authorization |}
  | None => None
  end.

Definition SIX_MB_IN_BYTES : Z := 6 * 1024 * 1024.

(** The first argument of [createDeployment], told apart by [typeof]. *)
Inductive ConfigOrTeam : Type :=
| IsTeam (id : string)
| IsConfig (config : DeploymentConfig).

(** The object literal [x ? {team: x} : {}]. *)
Definition team_query (x : option string) : Params :=
  match x with
  | Some t => if truthy t then [("team", t)] else []
  | None => []
  end.

(** ** The client operations the SDK classes call *)

Module Client.

Section Transport.

(** The transport behind the [APIClient]: its answer to a request may
    depend on the requests that came before. *)
Variable server : list Request -> Request -> Outcome Json.

(** Handing a request to the client: the request is logged, then the
    call settles with the answer of the transport. *)
Definition dispatch (r : Request) : Call Json :=
  fun log => (server log r, (log ++ [r])%list).

Definition get (path : string) (query : option Params) : Call Json :=
  dispatch {| method := GET; path := path; body := None; query := query |}.

Definition post (path : string) (body : option Body)
    (query : option Params) : Call Json :=
  dispatch {| method := POST; path := path; body := body; query := query |}.

Definition patch (path : string) (body : option Body)
    (query : option Params) : Call Json :=
  dispatch {| method := PATCH; path := path; body := body; query := query |}.

Definition delete (path : string) (body : option Body)
    (query : option Params) : Call Json :=
  dispatch {| method := DELETE; path := path; body := body; query := query |}.

End Transport.

End Client.

(** An SDK instance: [BaseSDK] holds the client. *)
Record BaseSDK : Type := { client : APIClient }.

(** ** The Ignite SDK ([src/sdks/ignite.ts]) *)

Module Ignite.

Definition t : Type := BaseSDK.

Section Methods.

(** [validateId] of [src/rest]: any boolean check of an identifier
    against a kind. *)
Variable validateId : string -> IdPrefix -> bool.

(** [parseSize] of [src/util]: a byte count, or an exception. *)
Variable parseSize : string -> Outcome Z.

Variable server : list Request -> Request -> Outcome Json.

(** Modelled from the spec: [assertId] of [src/rest] is missing; "the
    same check but raises on mismatch". *)
Definition assertId (id : string) (kind : IdPrefix) : Call unit :=
  if validateId id kind then ret tt
  else throw ("Invalid id: " ++ id ++ ". Expected " ++ prefix_name kind ++ "_{string}").

Definition getAllDeployments (this : t) (teamId : option string) : Call Json :=
  if negb (is_sk (authType (client this))) && negb (truthy_opt teamId) then
    throw "Team ID is required for Bearer or PAT authorization"
  else if is_sk (authType (client this)) && truthy_opt teamId then
    throw "Team ID is not required for secret authorization"
  else
    response <- Client.get server "/v1/ignite/deployments" (Some (team_query teamId)) ;;
    lift (destructure "deployments" response).

Definition updateContainerState (this : t) (container : string)
    (state : ContainerState) : Call unit :=
  Client.patch server "/v1/ignite/containers/:container_id/state"
    (Some (BodyState state)) (Some [("container_id", container)]) ;;;
  ret tt.

(** The argument analysis of [createDeployment]: the team, if any, and
    the config the call is about. *)
Definition createDeployment_arguments (this : t) (configOrTeam : ConfigOrTeam)
    (bearerOrPatConfig : option DeploymentConfig)
    : Call (option string * DeploymentConfig) :=
  match configOrTeam with
  | IsConfig config =>
      if is_sk (authType (client this)) then ret (None, config)
      else throw "First argument must be the team ID when using bearer authorization to create deployments."
  | IsTeam id =>
      match bearerOrPatConfig with
      | None =>
          throw "Second argument must be the deployment config when using bearer authorization to create deployments."
      | Some config =>
          if is_bearer (authType (client this)) || is_pat (authType (client this))
          then ret (Some id, config)
          else throw "Only argument must be the config when using secret authorization to create deployments."
      end
  end.

Definition createDeployment (this : t) (configOrTeam : ConfigOrTeam)
    (bearerOrPatConfig : option DeploymentConfig) : Call Json :=
  arguments <- createDeployment_arguments this configOrTeam bearerOrPatConfig ;;
  let (team, config) := arguments in
  size <- lift (parseSize (ram (resources config))) ;;
  if size <=? SIX_MB_IN_BYTES then
    throw "Allocated memory must be greater than 6MB when creating a deployment."
  else
    response <- Client.post server "/v1/ignite/deployments" (Some (BodyConfig config))
                  (Some (team_query team)) ;;
    lift (destructure "deployment" response).

Definition getContainers (this : t) (deployment : string) : Call Json :=
  response <- Client.get server "/v1/ignite/deployments/:deployment_id/containers"
                (Some [("deployment_id", deployment)]) ;;
  lift (destructure "containers" response).

(** The argument analysis of [getDeployment]: the team, if any, and
    the name or ID to look up. *)
Definition getDeployment_arguments (this : t) (teamOrNameOrId : string)
    (nameOrId : option string) : Call (option string * string) :=
  if truthy teamOrNameOrId then
    match truthy_value nameOrId with
    | Some realNameOrId =>
        (* teamOrNameOrId && nameOrId *)
        if is_sk (authType (client this)) then
          throw "Team ID is not required for secret authorization"
        else
          assertId teamOrNameOrId team ;;;
          ret (Some teamOrNameOrId, realNameOrId)
    | None =>
        (* teamOrNameOrId && !nameOrId *)
        if negb (is_sk (authType (client this))) then
          throw "Team ID is required for bearer or PAT authorization"
        else ret (None, teamOrNameOrId)
    end
  else throw "Team ID is required for bearer or PAT authorization".

(** The lookup of [getDeployment], once the arguments are sorted out:
    by ID when the string validates as a deployment ID, by name
    otherwise. *)
Definition getDeployment_lookup (team : option string) (realNameOrId : string)
    : Call Json :=
  if validateId realNameOrId deployment then
    response <- Client.get server "/v1/ignite/deployments/:deployment_id"
                  (Some (match team with
                         | Some id =>
                             if truthy id
                             then [("team", id); ("deployment_id", realNameOrId)]
                             else [("deployment_id", realNameOrId)]
                         | None => [("deployment_id", realNameOrId)]
                         end)) ;;
    lift (destructure "deployment" response)
  else
    response <- Client.get server "/v1/ignite/deployments/search"
                  (Some [("name", realNameOrId)]) ;;
    lift (destructure "deployment" response).

Definition getDeployment (this : t) (teamOrNameOrId : string)
    (nameOrId : option string) : Call Json :=
  arguments <- getDeployment_arguments this teamOrNameOrId nameOrId ;;
  getDeployment_lookup (fst arguments) (snd arguments).

Definition deleteDeployment (this : t) (deployment : string) : Call unit :=
  Client.delete server "/v1/ignite/deployments/:deployment_id" None
    (Some [("deployment_id", deployment)]) ;;;
  ret tt.

Definition createContainer (this : t) (deployment : string) : Call Json :=
  response <- Client.post server "/v1/ignite/deployments/:deployment_id/containers" None
                (Some [("deployment_id", deployment)]) ;;
  lift (destructure "container" response).

Definition deleteContainer (this : t) (container : string) : Call unit :=
  Client.delete server "/v1/ignite/containers/:container_id" None
    (Some [("container_id", container)]) ;;;
  ret tt.

Definition getLogs (this : t) (container : string) : Call Json :=
  response <- Client.get server "/v1/ignite/containers/:container_id/logs"
                (Some [("container_id", container)]) ;;
  lift (destructure "logs" response).

End Methods.

End Ignite.

(** ** The stand-alone Ignite class of the earlier sources *)

Module EarlyIgnite.

Record t : Type :=
  { client : APIClient;
    authType : APIAuthorizationType }.

(** The scheme tag a prefix stands for, if any. *)
Definition tag_of_prefix (p : string) : option APIAuthorizationType :=
  if (p =? "bearer")%string then Some bearer
  else if (p =? "pat")%string then Some pat
  else if (p =? "sk")%string then Some sk
  else None.

(** The constructor: the tag is the prefix of the credential. *)
Definition new (authorization baseUrl : string) : option t :=
  match tag_of_prefix (getIdPrefix authorization), new_APIClient baseUrl authorization with
  | Some tag, Some c => Some {| client := c; authType := tag |}
  | _, _ => None
  end.

(** The expression [x ? {team: x} : undefined]. *)
Definition team_query_or_undefined (x : option string) : option Params :=
  match x with
  | Some id => if truthy id then Some [("team", id)] else None
  | None => None
  end.

Section Methods.

Variable parseSize : string -> Outcome Z.

Variable server : list Request -> Request -> Outcome Json.

Definition getDeployments (this : t) (teamId : option string) : Call Json :=
  if is_bearer (authType this) && negb (truthy_opt teamId) then
    throw "Team ID is required for Bearer or PAT authorization"
  else if truthy_opt teamId && is_sk (authType this) then
    throw "Team ID is not required for secret authorization"
  else
    let query := team_query_or_undefined teamId in
    response <- Client.get server "/v1/ignite/deployments" query ;;
    lift (destructure "deployments" response).

Definition createDeployment_arguments (this : t) (configOrTeam : ConfigOrTeam)
    (bearerOrPatConfig : option DeploymentConfig)
    : Call (option string * DeploymentConfig) :=
  match configOrTeam with
  | IsConfig config =>
      if is_sk (authType this) then ret (None, config)
      else throw "First argument must be the team ID when using bearer authorization to create deployments."
  | IsTeam id =>
      match bearerOrPatConfig with
      | None =>
          throw "Second argument must be the deployment config when using bearer authorization to create deployments."
      | Some config =>
          if is_bearer (authType this) || is_pat (authType this)
          then ret (Some id, config)
          else throw "Only argument must be the config when using secret authorization to create deployments."
      end
  end.

Definition createDeployment (this : t) (configOrTeam : ConfigOrTeam)
    (bearerOrPatConfig : option DeploymentConfig) : Call Json :=
  arguments <- createDeployment_arguments this configOrTeam bearerOrPatConfig ;;
  let (team, config) := arguments in
  size <- lift (parseSize (ram (resources config))) ;;
  if size <=? SIX_MB_IN_BYTES then
    throw "Allocated memory must be greater than 6MB when creating a deployment."
  else
    response <- Client.post server "/v1/ignite/deployments" (Some (BodyConfig config))
                  (team_query_or_undefined team) ;;
    lift (destructure "deployment" response).

End Methods.

End EarlyIgnite.

(** ** The Hop aggregate *)

Module Hop.

Inductive SdkName : Type := ignite | user | pipe | projects | registry | channels.

Record Sdks : Type :=
  { sdk_ignite : Ignite.t;
    sdk_user : BaseSDK;
    sdk_pipe : BaseSDK;
    sdk_projects : BaseSDK;
    sdk_registry : BaseSDK;
    sdk_channels : BaseSDK }.

Definition instance (s : Sdks) (n : SdkName) : BaseSDK :=
  match n with
  | ignite => sdk_ignite s
  | user => sdk_user s
  | pipe => sdk_pipe s
  | projects => sdk_projects s
  | registry => sdk_registry s
  | channels => sdk_channels s
  end.

(** The argument of [bind] as it is written in the constructor. *)
Inductive Receiver : Type :=
| this_sdks (n : SdkName)
| this_member (name : string).

(** The value that argument has when the constructor evaluates it. *)
Inductive ThisValue : Type :=
| Instance (n : SdkName)
| Namespace (name : string)
| Undefined.

(** One [method.bind(receiver)] of the constructor: the SDK whose method
    it is, the method and the receiver expression. *)
Record Binding : Type :=
  { owner : SdkName;
    member : string;
    receiver : Receiver }.

Record BoundMethod : Type :=
  { bound_owner : SdkName;
    bound_member : string;
    this_arg : ThisValue }.

Definition own (n : SdkName) (m : string) : Binding :=
  {| owner := n; member := m; receiver := this_sdks n |}.

(** The assignments of the constructor after [this.sdks], in order: the
    member assigned and the bindings its object literal holds. *)
Definition assignments : list (string * list (string * Binding)) :=
  [ ("ignite",
     [ ("ignite.deployments.create", own ignite "createDeployment");
       ("ignite.deployments.delete", own ignite "deleteDeployment");
       ("ignite.deployments.getAll", own ignite "getAllDeployments");
       ("ignite.deployments.get", own ignite "getDeployment");
       ("ignite.deployments.getContainers", own ignite "getContainers");
       ("ignite.deployments.gateways.getAll", own ignite "getGatewaysForDeployment");
       ("ignite.deployments.gateways.create", own ignite "createGateway");
       ("ignite.gateways.get",
        {| owner := ignite; member := "getGateway"; receiver := this_member "ignite" |});
       ("ignite.gateways.addDomain", own ignite "addDomainToGateway");
       ("ignite.containers.create", own ignite "createContainer");
       ("ignite.containers.delete", own ignite "deleteContainer");
       ("ignite.containers.getLogs", own ignite "getLogs") ]);
    ("users",
     [ ("users.me.get", own user "getMe");
       ("users.me.pats.create", own user "createPAT");
       ("users.me.pats.delete", own user "deletePAT");
       ("users.me.pats.getAll", own user "getAllPATs") ]);
    ("projects",
     [ ("projects.projectTokens.delete", own projects "deleteProjectToken");
       ("projects.projectTokens.get", own projects "getProjectTokens");
       ("projects.projectTokens.create", own projects "createProjectToken");
       ("projects.secrets.create", own projects "createSecret");
       ("projects.secrets.getAll", own projects "getSecrets");
       ("projects.secrets.delete", own projects "deleteSecret");
       ("projects.getAllMembers", own projects "getAllMembers");
       ("projects.getCurrentMember", own projects "getCurrentMember") ]);
    ("pipe",
     [ ("pipe.streams.getAll", own pipe "getStreams") ]);
    ("registry",
     [ ("registry.images.getAll", own registry "getImages") ]);
    ("channels",
     [ ("channels.create",
        {| owner := channels; member := "create"; receiver := this_sdks ignite |});
       ("channels.tokens.create", own channels "createToken") ]) ].

(** Reading a receiver while the members in [assigned] have been set:
    [this.sdks.x] is the SDK instance; a member of [this] is the facade
    namespace once assigned and [undefined] before. *)
Definition eval_receiver (assigned : list string) (r : Receiver) : ThisValue :=
  match r with
  | this_sdks n => Instance n
  | this_member name =>
      if existsb (String.eqb name) assigned then Namespace name else Undefined
  end.

Definition bind_method (assigned : list string) (b : Binding) : BoundMethod :=
  {| bound_owner := owner b;
     bound_member := member b;
     this_arg := eval_receiver assigned (receiver b) |}.

(** Running the assignments: each object literal is evaluated before
    its member is assigned. *)
Fixpoint run_assignments (assigned : list string)
    (l : list (string * list (string * Binding))) : list (string * BoundMethod) :=
  match l with
  | [] => []
  | (name, literal) :: rest =>
      (map (fun e => (fst e, bind_method assigned (snd e))) literal
         ++ run_assignments (name :: assigned) rest)%list
  end.

Record t : Type :=
  { authType : APIAuthorizationType;
    sdks : Sdks;
    facade : list (string * BoundMethod) }.

(** Modelled from the spec: the constructors of the SDK classes are
    missing; each builds its own client from the credential. *)
Definition new_SDK (authorization baseUrl : string) : option BaseSDK :=
  match new_APIClient baseUrl authorization with
  | Some c => Some {| client := c |}
  | None => None
  end.

Definition new (authorzation baseUrl : string) : option t :=
  match getAuthType authorzation, new_SDK authorzation baseUrl with
  | Some tag, Some sdk =>
      Some {| authType := tag;
              sdks := {| sdk_ignite := sdk; sdk_user := sdk; sdk_pipe := sdk;
                         sdk_projects := sdk; sdk_registry := sdk;
                         sdk_channels := sdk |};
              facade := run_assignments ["sdks"; "authType"] assignments |}
  | _, _ => None
  end.

Section Calls.

Variable validateId : string -> IdPrefix -> bool.
Variable parseSize : string -> Outcome Z.
Variable server : list Request -> Request -> Outcome Json.

(** Calling a bound method of the facade: the method body runs with the
    bound [this]; reading [this.client] of anything but an SDK instance
    is a [TypeError]. *)
Definition call_bound {A : Type} (hop : t) (entry : string)
    (body : BaseSDK -> Call A) : Call A :=
  match assoc entry (facade hop) with
  | Some b =>
      match this_arg b with
      | Instance n => body (instance (sdks hop) n)
      | Namespace _ | Undefined =>
          throw "TypeError: Cannot read properties of undefined (reading 'client')"
      end
  | None => throw "TypeError: not a function"
  end.

(** [hop.ignite.containers.stop] *)
Definition containers_stop (hop : t) (container : string) : Call unit :=
  Ignite.updateContainerState server (sdk_ignite (sdks hop)) container STOPPED.

(** [hop.ignite.containers.start] *)
Definition containers_start (hop : t) (container : string) : Call unit :=
  Ignite.updateContainerState server (sdk_ignite (sdks hop)) container RUNNING.

(** The facade entries whose methods [src/sdks/ignite.ts] defines. *)
Inductive FacadeCall : Type :=
| deployments_create (configOrTeam : ConfigOrTeam)
    (bearerOrPatConfig : option DeploymentConfig)
| deployments_delete (deployment : string)
| deployments_getAll (teamId : option string)
| deployments_get (teamOrNameOrId : string) (nameOrId : option string)
| deployments_getContainers (deployment : string)
| containers_create (deployment : string)
| containers_delete (container : string)
| containers_getLogs (container : string)
| call_containers_stop (container : string)
| call_containers_start (container : string).

Definition forget {A : Type} (m : Call A) : Call Json := m ;;; ret JUndefined.

Definition perform (hop : t) (c : FacadeCall) : Call Json :=
  match c with
  | deployments_create a b =>
      call_bound hop "ignite.deployments.create"
        (fun this => Ignite.createDeployment parseSize server this a b)
  | deployments_delete d =>
      forget (call_bound hop "ignite.deployments.delete"
                (fun this => Ignite.deleteDeployment server this d))
  | deployments_getAll teamId =>
      call_bound hop "ignite.deployments.getAll"
        (fun this => Ignite.getAllDeployments server this teamId)
  | deployments_get a b =>
      call_bound hop "ignite.deployments.get"
        (fun this => Ignite.getDeployment validateId server this a b)
  | deployments_getContainers d =>
      call_bound hop "ignite.deployments.getContainers"
        (fun this => Ignite.getContainers server this d)
  | containers_create d =>
      call_bound hop "ignite.containers.create"
        (fun this => Ignite.createContainer server this d)
  | containers_delete c =>
      forget (call_bound hop "ignite.containers.delete"
                (fun this => Ignite.deleteContainer server this c))
  | containers_getLogs c =>
      call_bound hop "ignite.containers.getLogs"
        (fun this => Ignite.getLogs server this c)
  | call_containers_stop c => forget (containers_stop hop c)
  | call_containers_start c => forget (containers_start hop c)
  end.

(** A client in use: the object and the requests sent so far. *)
Definition World : Type := (t * list Request)%type.

(** One operation on the client.  No method assigns a member of the
    object, so it is handed on as it is. *)
Definition step (w : World) (c : FacadeCall) : World :=
  (fst w, snd (perform (fst w) c (snd w))).

Definition run (w : World) (cs : list FacadeCall) : World :=
  fold_left step cs w.

End Calls.

End Hop.

(** ** Methods as they run on their instance

    The same methods once more, with [this] as a mutable instance: a
    method reads the members of [this] when it runs and hands on the
    instance as it leaves it. *)

Module Stateful.

Section Instance.

Variable This : Type.

(** A method body: from [this] and the log to an outcome, [this]
    after the call and the log after the call. *)
Definition Method (A : Type) : Type :=
  This -> list Request -> Outcome A * This * list Request.

Definition ret {A : Type} (a : A) : Method A :=
  fun this log => (Returned a, this, log).

Definition throw {A : Type} (message : string) : Method A :=
  fun this log => (Thrown message, this, log).

Definition bind {A B : Type} (m : Method A) (k : A -> Method B) : Method B :=
  fun this log =>
    match m this log with
    | (Returned a, this', log') => k a this' log'
    | (Thrown e, this', log') => (Thrown e, this', log')
    end.

Definition lift {A : Type} (o : Outcome A) : Method A :=
  fun this log => (o, this, log).

(** Reading a member of [this]. *)
Definition read {A : Type} (member : This -> A) : Method A :=
  fun this log => (Returned (member this), this, log).

Definition forget {A : Type} (m : Method A) : Method Json :=
  bind m (fun _ => ret JUndefined).

Section Transport.

Variable server : list Request -> Request -> Outcome Json.

Definition dispatch (r : Request) : Method Json :=
  fun this log => (server log r, this, (log ++ [r])%list).

Definition get (path : string) (query : option Params) : Method Json :=
  dispatch {| method := GET; path := path; body := None; query := query |}.

Definition post (path : string) (body : option Body)
    (query : option Params) : Method Json :=
  dispatch {| method := POST; path := path; body := body; query := query |}.

Definition patch (path : string) (body : option Body)
    (query : option Params) : Method Json :=
  dispatch {| method := PATCH; path := path; body := body; query := query |}.

Definition delete (path : string) (body : option Body)
    (query : option Params) : Method Json :=
  dispatch {| method := DELETE; path := path; body := body; query := query |}.

End Transport.

End Instance.

Arguments ret {This A} a.
Arguments throw {This A} message.
Arguments bind {This A B} m k.
Arguments lift {This A} o.
Arguments read {This A} member.
Arguments forget {This A} m.
Arguments dispatch {This} server r.
Arguments get {This} server path query.
Arguments post {This} server path body query.
Arguments patch {This} server path body query.
Arguments delete {This} server path body query.

Declare Scope method_scope.
Delimit Scope method_scope with method.
Notation "x <- m ;; k" := (bind m (fun x => k))
  (at level 61, m at next level, right associativity) : method_scope.
Notation "m ;;; k" := (bind m (fun _ => k))
  (at level 61, right associativity) : method_scope.

(** *** The class [Ignite] of [src/sdks/ignite.ts] *)

Module Ignite.

Section Methods.

Variable validateId : string -> IdPrefix -> bool.
Variable parseSize : string -> Outcome Z.
Variable server : list Request -> Request -> Outcome Json.

Local Open Scope method_scope.

(** [this.client.authType] *)
Definition this_authType : Method BaseSDK APIAuthorizationType :=
  read (fun this => authType (client this)).

(** Modelled from the spec: [assertId] of [src/rest] is missing; "the
    same check but raises on mismatch". *)
Definition assertId (id : string) (kind : IdPrefix) : Method BaseSDK unit :=
  if validateId id kind then ret tt
  else throw ("Invalid id: " ++ id ++ ". Expected " ++ prefix_name kind ++ "_{string}").

Definition getAllDeployments (teamId : option string) : Method BaseSDK Json :=
  tag <- this_authType ;;
  if negb (is_sk tag) && negb (truthy_opt teamId) then
    throw "Team ID is required for Bearer or PAT authorization"
  else
    tag <- this_authType ;;
    if is_sk tag && truthy_opt teamId then
      throw "Team ID is not required for secret authorization"
    else
      response <- get server "/v1/ignite/deployments" (Some (team_query teamId)) ;;
      lift (destructure "deployments" response).

Definition updateContainerState (container : string) (state : ContainerState)
    : Method BaseSDK unit :=
  patch server "/v1/ignite/containers/:container_id/state"
    (Some (BodyState state)) (Some [("container_id", container)]) ;;;
  ret tt.

Definition createDeployment_arguments (configOrTeam : ConfigOrTeam)
    (bearerOrPatConfig : option DeploymentConfig)
    : Method BaseSDK (option string * DeploymentConfig) :=
  match configOrTeam with
  | IsConfig config =>
      tag <- this_authType ;;
      if is_sk tag then ret (None, config)
      else throw "First argument must be the team ID when using bearer authorization to create deployments."
  | IsTeam id =>
      match bearerOrPatConfig with
      | None =>
          throw "Second argument must be the deployment config when using bearer authorization to create deployments."
      | Some config =>
          tag <- this_authType ;;
          if is_bearer tag || is_pat tag then ret (Some id, config)
          else throw "Only argument must be the config when using secret authorization to create deployments."
      end
  end.

Definition createDeployment (configOrTeam : ConfigOrTeam)
    (bearerOrPatConfig : option DeploymentConfig) : Method BaseSDK Json :=
  arguments <- createDeployment_arguments configOrTeam bearerOrPatConfig ;;
  let (team, config) := arguments in
  size <- lift (parseSize (ram (resources config))) ;;
  if size <=? SIX_MB_IN_BYTES then
    throw "Allocated memory must be greater than 6MB when creating a deployment."
  else
    response <- post server "/v1/ignite/deployments" (Some (BodyConfig config))
                  (Some (team_query team)) ;;
    lift (destructure "deployment" response).

Definition getContainers (deployment : string) : Method BaseSDK Json :=
  response <- get server "/v1/ignite/deployments/:deployment_id/containers"
                (Some [("deployment_id", deployment)]) ;;
  lift (destructure "containers" response).

Definition getDeployment_arguments (teamOrNameOrId : string)
    (nameOrId : option string) : Method BaseSDK (option string * string) :=
  if truthy teamOrNameOrId then
    match truthy_value nameOrId with
    | Some realNameOrId =>
        (* teamOrNameOrId && nameOrId *)
        tag <- this_authType ;;
        if is_sk tag then
          throw "Team ID is not required for secret authorization"
        else
          assertId teamOrNameOrId team ;;;
          ret (Some teamOrNameOrId, realNameOrId)
    | None =>
        (* teamOrNameOrId && !nameOrId *)
        tag <- this_authType ;;
        if negb (is_sk tag) then
          throw "Team ID is required for bearer or PAT authorization"
        else ret (None, teamOrNameOrId)
    end
  else throw "Team ID is required for bearer or PAT authorization".

Definition getDeployment_lookup (team : option string) (realNameOrId : string)
    : Method BaseSDK Json :=
  if validateId realNameOrId deployment then
    response <- get server "/v1/ignite/deployments/:deployment_id"
                  (Some (match team with
                         | Some id =>
                             if truthy id
                             then [("team", id); ("deployment_id", realNameOrId)]
                             else [("deployment_id", realNameOrId)]
                         | None => [("deployment_id", realNameOrId)]
                         end)) ;;
    lift (destructure "deployment" response)
  else
    response <- get server "/v1/ignite/deployments/search"
                  (Some [("name", realNameOrId)]) ;;
    lift (destructure "deployment" response).

Definition getDeployment (teamOrNameOrId : string) (nameOrId : option string)
    : Method BaseSDK Json :=
  arguments <- getDeployment_arguments teamOrNameOrId nameOrId ;;
  getDeployment_lookup (fst arguments) (snd arguments).

Definition deleteDeployment (deployment : string) : Method BaseSDK unit :=
  delete server "/v1/ignite/deployments/:deployment_id" None
    (Some [("deployment_id", deployment)]) ;;;
  ret tt.

Definition createContainer (deployment : string) : Method BaseSDK Json :=
  response <- post server "/v1/ignite/deployments/:deployment_id/containers" None
                (Some [("deployment_id", deployment)]) ;;
  lift (destructure "container" response).

Definition deleteContainer (container : string) : Method BaseSDK unit :=
  delete server "/v1/ignite/containers/:container_id" None
    (Some [("container_id", container)]) ;;;
  ret tt.

Definition getLogs (container : string) : Method BaseSDK Json :=
  response <- get server "/v1/ignite/containers/:container_id/logs"
                (Some [("container_id", container)]) ;;
  lift (destructure "logs" response).

(** The argument list of a call, as the methods of the class declare
    their parameters. *)
Inductive Arguments : Type :=
| args_config_or_team (configOrTeam : ConfigOrTeam)
    (bearerOrPatConfig : option DeploymentConfig)
| args_id (id : string)
| args_optional_id (teamId : option string)
| args_name_or_id (teamOrNameOrId : string) (nameOrId : option string).

(** The method of the class that a member name stands for, applied to
    an argument list of its signature; an awaited call that returns
    nothing settles with [undefined].  The methods that
    [src/sdks/ignite.ts] does not define, and argument lists of another
    signature, have no meaning here. *)
Definition member (name : string) (arguments : Arguments)
    : option (Method BaseSDK Json) :=
  match arguments with
  | args_config_or_team a b =>
      if (name =? "createDeployment")%string then Some (createDeployment a b)
      else None
  | args_optional_id teamId =>
      if (name =? "getAllDeployments")%string then Some (getAllDeployments teamId)
      else None
  | args_name_or_id a b =>
      if (name =? "getDeployment")%string then Some (getDeployment a b)
      else None
  | args_id id =>
      if (name =? "deleteDeployment")%string then Some (forget (deleteDeployment id))
      else if (name =? "getContainers")%string then Some (getContainers id)
      else if (name =? "createContainer")%string then Some (createContainer id)
      else if (name =? "deleteContainer")%string then Some (forget (deleteContainer id))
      else if (name =? "getLogs")%string then Some (getLogs id)
      else None
  end.

End Methods.

End Ignite.

(** *** The earlier class [Ignite] *)

Module EarlyIgnite.

Section Methods.

Variable parseSize : string -> Outcome Z.
Variable server : list Request -> Request -> Outcome Json.

Local Open Scope method_scope.

(** [this.authType] *)
Definition this_authType : Method EarlyIgnite.t APIAuthorizationType :=
  read EarlyIgnite.authType.

Definition getDeployments (teamId : option string) : Method EarlyIgnite.t Json :=
  tag <- this_authType ;;
  if is_bearer tag && negb (truthy_opt teamId) then
    throw "Team ID is required for Bearer or PAT authorization"
  else
    tag <- this_authType ;;
    if truthy_opt teamId && is_sk tag then
      throw "Team ID is not required for secret authorization"
    else
      let query := EarlyIgnite.team_query_or_undefined teamId in
      response <- get server "/v1/ignite/deployments" query ;;
      lift (destructure "deployments" response).

Definition createDeployment_arguments (configOrTeam : ConfigOrTeam)
    (bearerOrPatConfig : option DeploymentConfig)
    : Method EarlyIgnite.t (option string * DeploymentConfig) :=
  match configOrTeam with
  | IsConfig config =>
      tag <- this_authType ;;
      if is_sk tag then ret (None, config)
      else throw "First argument must be the team ID when using bearer authorization to create deployments."
  | IsTeam id =>
      match bearerOrPatConfig with
      | None =>
          throw "Second argument must be the deployment config when using bearer authorization to create deployments."
      | Some config =>
          tag <- this_authType ;;
          if is_bearer tag || is_pat tag then ret (Some id, config)
          else throw "Only argument must be the config when using secret authorization to create deployments."
      end
  end.

Definition createDeployment (configOrTeam : ConfigOrTeam)
    (bearerOrPatConfig : option DeploymentConfig) : Method EarlyIgnite.t Json :=
  arguments <- createDeployment_arguments configOrTeam bearerOrPatConfig ;;
  let (team, config) := arguments in
  size <- lift (parseSize (ram (resources config))) ;;
  if size <=? SIX_MB_IN_BYTES then
    throw "Allocated memory must be greater than 6MB when creating a deployment."
  else
    response <- post server "/v1/ignite/deployments" (Some (BodyConfig config))
                  (EarlyIgnite.team_query_or_undefined team) ;;
    lift (destructure "deployment" response).

(** A call of one of the two methods. *)
Inductive MethodCall : Type :=
| call_getDeployments (teamId : option string)
| call_createDeployment (configOrTeam : ConfigOrTeam)
    (bearerOrPatConfig : option DeploymentConfig).

Definition perform (c : MethodCall) : Method EarlyIgnite.t Json :=
  match c with
  | call_getDeployments teamId => getDeployments teamId
  | call_createDeployment a b => createDeployment a b
  end.

(** A sequence of calls on one instance: the instance and the log
    after the last of them. *)
Fixpoint session (cs : list MethodCall) (this : EarlyIgnite.t)
    (log : list Request) : EarlyIgnite.t * list Request :=
  match cs with
  | [] => (this, log)
  | c :: rest =>
      match perform c this log with
      | (_, this', log') => session rest this' log'
      end
  end.

End Methods.

End EarlyIgnite.

(** *** The facade of [Hop] *)

Module Hop.

Definition set_instance (s : Hop.Sdks) (n : Hop.SdkName) (value : BaseSDK) : Hop.Sdks :=
  match n with
  | Hop.ignite =>
      {| Hop.sdk_ignite := value; Hop.sdk_user := Hop.sdk_user s;
         Hop.sdk_pipe := Hop.sdk_pipe s; Hop.sdk_projects := Hop.sdk_projects s;
         Hop.sdk_registry := Hop.sdk_registry s; Hop.sdk_channels := Hop.sdk_channels s |}
  | Hop.user =>
      {| Hop.sdk_ignite := Hop.sdk_ignite s; Hop.sdk_user := value;
         Hop.sdk_pipe := Hop.sdk_pipe s; Hop.sdk_projects := Hop.sdk_projects s;
         Hop.sdk_registry := Hop.sdk_registry s; Hop.sdk_channels := Hop.sdk_channels s |}
  | Hop.pipe =>
      {| Hop.sdk_ignite := Hop.sdk_ignite s; Hop.sdk_user := Hop.sdk_user s;
         Hop.sdk_pipe := value; Hop.sdk_projects := Hop.sdk_projects s;
         Hop.sdk_registry := Hop.sdk_registry s; Hop.sdk_channels := Hop.sdk_channels s |}
  | Hop.projects =>
      {| Hop.sdk_ignite := Hop.sdk_ignite s; Hop.sdk_user := Hop.sdk_user s;
         Hop.sdk_pipe := Hop.sdk_pipe s; Hop.sdk_projects := value;
         Hop.sdk_registry := Hop.sdk_registry s; Hop.sdk_channels := Hop.sdk_channels s |}
  | Hop.registry =>
      {| Hop.sdk_ignite := Hop.sdk_ignite s; Hop.sdk_user := Hop.sdk_user s;
         Hop.sdk_pipe := Hop.sdk_pipe s; Hop.sdk_projects := Hop.sdk_projects s;
         Hop.sdk_registry := value; Hop.sdk_channels := Hop.sdk_channels s |}
  | Hop.channels =>
      {| Hop.sdk_ignite := Hop.sdk_ignite s; Hop.sdk_user := Hop.sdk_user s;
         Hop.sdk_pipe := Hop.sdk_pipe s; Hop.sdk_projects := Hop.sdk_projects s;
         Hop.sdk_registry := Hop.sdk_registry s; Hop.sdk_channels := value |}
  end.

(** A method of an SDK class running on the instance [this.sdks.n] of
    the aggregate. *)
Definition on_instance {A : Type} (n : Hop.SdkName) (m : Method BaseSDK A)
    : Method Hop.t A :=
  fun hop log =>
    match m (Hop.instance (Hop.sdks hop) n) log with
    | (outcome, this', log') =>
        (outcome,
         {| Hop.authType := Hop.authType hop;
            Hop.sdks := set_instance (Hop.sdks hop) n this';
            Hop.facade := Hop.facade hop |},
         log')
    end.

Section Calls.

Variable validateId : string -> IdPrefix -> bool.
Variable parseSize : string -> Outcome Z.
Variable server : list Request -> Request -> Outcome Json.

(** The method a bound entry holds: the member of the class of its
    owner.  Of the SDK classes only [Ignite] has its methods under
    [src/]. *)
Definition class_member (owner : Hop.SdkName) (name : string)
    (arguments : Ignite.Arguments) : option (Method BaseSDK Json) :=
  match owner with
  | Hop.ignite => Ignite.member validateId parseSize server name arguments
  | _ => None
  end.

(** Calling the entry [entry] of the facade: the method the entry was
    bound from runs with the bound [this].  [None] where the method has
    no meaning here. *)
Definition invoke (entry : string) (arguments : Ignite.Arguments) (hop : Hop.t)
    (log : list Request) : option (Outcome Json * Hop.t * list Request) :=
  match assoc entry (Hop.facade hop) with
  | Some b =>
      match class_member (Hop.bound_owner b) (Hop.bound_member b) arguments with
      | Some body =>
          match Hop.this_arg b with
          | Hop.Instance n => Some (on_instance n body hop log)
          | Hop.Namespace _ | Hop.Undefined =>
              Some (Thrown "TypeError: Cannot read properties of undefined (reading 'client')",
                    hop, log)
          end
      | None => None
      end
  | None => Some (Thrown "TypeError: not a function", hop, log)
  end.

(** [hop.ignite.containers.stop] *)
Definition containers_stop (container : string) : Method Hop.t Json :=
  on_instance Hop.ignite (forget (Ignite.updateContainerState server container STOPPED)).

(** [hop.ignite.containers.start] *)
Definition containers_start (container : string) : Method Hop.t Json :=
  on_instance Hop.ignite (forget (Ignite.updateContainerState server container RUNNING)).

(** An operation on the aggregate: a call of a bound entry, or of one
    of the two arrow functions. *)
Inductive Operation : Type :=
| call_entry (entry : string) (arguments : Ignite.Arguments)
| call_stop (container : string)
| call_start (container : string).

Definition perform (op : Operation) (hop : Hop.t) (log : list Request)
    : option (Outcome Json * Hop.t * list Request) :=
  match op with
  | call_entry entry arguments => invoke entry arguments hop log
  | call_stop c => Some (containers_stop c hop log)
  | call_start c => Some (containers_start c hop log)
  end.

(** A sequence of operations on one object: the object and the log
    after the last of them. *)
Fixpoint session (ops : list Operation) (hop : Hop.t) (log : list Request)
    : option (Hop.t * list Request) :=
  match ops with
  | [] => Some (hop, log)
  | op :: rest =>
      match perform op hop log with
      | Some (_, hop', log') => session rest hop' log'
      | None => None
      end
  end.

(** The operation a call of the facade is. *)
Definition operation_of (c : Hop.FacadeCall) : Operation :=
  match c with
  | Hop.deployments_create a b =>
      call_entry "ignite.deployments.create" (Ignite.args_config_or_team a b)
  | Hop.deployments_delete d =>
      call_entry "ignite.deployments.delete" (Ignite.args_id d)
  | Hop.deployments_getAll teamId =>
      call_entry "ignite.deployments.getAll" (Ignite.args_optional_id teamId)
  | Hop.deployments_get a b =>
      call_entry "ignite.deployments.get" (Ignite.args_name_or_id a b)
  | Hop.deployments_getContainers d =>
      call_entry "ignite.deployments.getContainers" (Ignite.args_id d)
  | Hop.containers_create d =>
      call_entry "ignite.containers.create" (Ignite.args_id d)
  | Hop.containers_delete c =>
      call_entry "ignite.containers.delete" (Ignite.args_id c)
  | Hop.containers_getLogs c =>
      call_entry "ignite.containers.getLogs" (Ignite.args_id c)
  | Hop.call_containers_stop c => call_stop c
  | Hop.call_containers_start c => call_start c
  end.

End Calls.

End Hop.

End Stateful.

(** ** Sample parameters *)

Definition digit_value (c : ascii) : option Z :=
  let n := Z.of_nat (nat_of_ascii c) in
  if (48 <=? n) && (n <=? 57) then Some (n - 48) else None.

Fixpoint leading_number (s : string) (acc : Z) : Z * string :=
  match s with
  | EmptyString => (acc, s)
  | String c rest =>
      match digit_value c with
      | Some d => leading_number rest (10 * acc + d)
      | None => (acc, s)
      end
  end.

(** A size parser to run the methods with: a decimal count followed by
    one of the units b, kb, mb and gb. *)
Definition parseSize_units (size : string) : Outcome Z :=
  let (n, unit) := leading_number size 0 in
  if (unit =? "b")%string then Returned n
  else if (unit =? "kb")%string then Returned (n * 1024)
  else if (unit =? "mb")%string then Returned (n * 1024 * 1024)
  else if (unit =? "gb")%string then Returned (n * 1024 * 1024 * 1024)
  else Thrown ("Invalid size: " ++ size).

(** A transport to run the methods with: every request succeeds with an
    empty object. *)
Definition server_empty (log : list Request) (r : Request) : Outcome Json :=
  Returned (JObject []).

Definition config_with_ram (size : string) : DeploymentConfig :=
  {| resources := {| ram := size |}; other_members := [] |}.

(** ** Requests and observations the properties speak of *)

(** The call throws before anything is dispatched. *)
Definition throws_before_dispatch {A : Type} (m : Call A) (log : list Request) : Prop :=
  exists e, m log = (Thrown e, log).

(** The call dispatches the request [r] and nothing else. *)
Definition dispatches_only {A : Type} (m : Call A) (log : list Request)
    (r : Request) : Prop :=
  snd (m log) = (log ++ [r])%list.

(** [GET /v1/ignite/deployments/:deployment_id] *)
Definition get_by_id_request (team : option string) (id : string) : Request :=
  {| method := GET;
     path := "/v1/ignite/deployments/:deployment_id";
     body := None;
     query := Some (team_query team ++ [("deployment_id", id)])%list |}.

(** [GET /v1/ignite/deployments/search] *)
Definition search_by_name_request (name : string) : Request :=
  {| method := GET;
     path := "/v1/ignite/deployments/search";
     body := None;
     query := Some [("name", name)] |}.

(** [GET /v1/ignite/deployments] *)
Definition list_deployments_request (parameters : option Params) : Request :=
  {| method := GET;
     path := "/v1/ignite/deployments";
     body := None;
     query := parameters |}.

(** [POST /v1/ignite/deployments] *)
Definition create_deployment_request (config : DeploymentConfig)
    (parameters : option Params) : Request :=
  {| method := POST;
     path := "/v1/ignite/deployments";
     body := Some (BodyConfig config);
     query := parameters |}.

(** [PATCH /v1/ignite/containers/:container_id/state] *)
Definition container_state_request (container : string)
    (state : ContainerState) : Request :=
  {| method := PATCH;
     path := "/v1/ignite/containers/:container_id/state";
     body := Some (BodyState state);
     query := Some [("container_id", container)] |}.

(** The query parameters of a request: no parameter object and an empty
    one both carry none. *)
Definition parameters_of (r : Request) : Params :=
  match query r with
  | Some l => l
  | None => []
  end.

(** The name or ID among the arguments of [getDeployment]: the second
    argument when it is truthy, the only one otherwise. *)
Definition name_or_id_argument (teamOrNameOrId : string)
    (nameOrId : option string) : string :=
  match truthy_value nameOrId with
  | Some realNameOrId => realNameOrId
  | None => teamOrNameOrId
  end.

(** The config among the arguments of [createDeployment]. *)
Definition config_argument (configOrTeam : ConfigOrTeam)
    (bearerOrPatConfig : option DeploymentConfig) : option DeploymentConfig :=
  match configOrTeam with
  | IsConfig config => Some config
  | IsTeam _ => bearerOrPatConfig
  end.

(** The team among the arguments of [createDeployment]. *)
Definition team_argument (configOrTeam : ConfigOrTeam) : option string :=
  match configOrTeam with
  | IsTeam id => Some id
  | IsConfig _ => None
  end.

(** The argument shape that goes with a scheme: a team and a config
    under [bearer] and [pat], a config alone under [sk]. *)
Definition shape_matches (tag : APIAuthorizationType) (configOrTeam : ConfigOrTeam)
    (bearerOrPatConfig : option DeploymentConfig) : bool :=
  match configOrTeam, bearerOrPatConfig with
  | IsTeam _, Some _ => negb (is_sk tag)
  | IsConfig _, None => is_sk tag
  | _, _ => false
  end.

(** The calls the declared overloads admit, and the call with a team
    alone: a config in first place is the only argument. *)
Definition config_comes_alone (configOrTeam : ConfigOrTeam)
    (bearerOrPatConfig : option DeploymentConfig) : Prop :=
  match configOrTeam with
  | IsConfig _ => bearerOrPatConfig = None
  | IsTeam _ => True
  end.

(** A client of the given scheme. *)
Definition sdk_of (tag : APIAuthorizationType) (baseUrl authorization : string)
    : BaseSDK :=
  {| client := {| authType := tag; baseUrl := baseUrl;
                  authorization := authorization |} |}.

(** An instance of the earlier class with the given scheme. *)
Definition early_of (tag : APIAuthorizationType) (baseUrl authorization : string)
    : EarlyIgnite.t :=
  {| EarlyIgnite.client := {| authType := tag; baseUrl := baseUrl;
                              authorization := authorization |};
     EarlyIgnite.authType := tag |}.

Definition sdk_name_eqb (a b : Hop.SdkName) : bool :=
  match a, b with
  | Hop.ignite, Hop.ignite | Hop.user, Hop.user | Hop.pipe, Hop.pipe
  | Hop.projects, Hop.projects | Hop.registry, Hop.registry
  | Hop.channels, Hop.channels => true
  | _, _ => false
  end.

(** The bound [this] is the instance of the SDK that defines the method. *)
Definition bound_to_owner (b : Hop.BoundMethod) : bool :=
  match Hop.this_arg b with
  | Hop.Instance n => sdk_name_eqb n (Hop.bound_owner b)
  | _ => false
  end.

(** The facade every [Hop] object is built with. *)
Definition hop_facade : list (string * Hop.BoundMethod) :=
  Hop.run_assignments ["sdks"; "authType"] Hop.assignments.

(** Sample clients and objects. *)
Definition sample_base : string := "https://api.hop.io".

Definition sample_sk : BaseSDK := sdk_of sk sample_base "sk_c2FtcGxl".

Definition sample_bearer : BaseSDK := sdk_of bearer sample_base "bearer_c2FtcGxl".

Definition sample_hop : Hop.t :=
  {| Hop.authType := sk;
     Hop.sdks := {| Hop.sdk_ignite := sample_sk; Hop.sdk_user := sample_sk;
                    Hop.sdk_pipe := sample_sk; Hop.sdk_projects := sample_sk;
                    Hop.sdk_registry := sample_sk; Hop.sdk_channels := sample_sk |};
     Hop.facade := hop_facade |}.

(** The member of the response a facade entry returns, if it returns
    one. *)
Definition response_member (c : Hop.FacadeCall) : option string :=
  match c with
  | Hop.deployments_create _ _ => Some "deployment"
  | Hop.deployments_getAll _ => Some "deployments"
  | Hop.deployments_get _ _ => Some "deployment"
  | Hop.deployments_getContainers _ => Some "containers"
  | Hop.containers_create _ => Some "container"
  | Hop.containers_getLogs _ => Some "logs"
  | Hop.deployments_delete _ | Hop.containers_delete _
  | Hop.call_containers_stop _ | Hop.call_containers_start _ => None
  end.

(** What a method makes of the answer to its request: an exception is
    passed on; of a value it returns the member it destructures, or
    nothing when it awaits the call only. *)
Definition read_response (key : option string) (answer : Outcome Json) : Outcome Json :=
  match answer with
  | Thrown e => Thrown e
  | Returned value =>
      match key with
      | Some k => destructure k value
      | None => Returned JUndefined
      end
  end.

(** The segments of a path template, separated by [/]. *)
Fixpoint split_path (s : string) : list string :=
  match s with
  | EmptyString => [EmptyString]
  | String c rest =>
      if Ascii.eqb c "/"%char then EmptyString :: split_path rest
      else match split_path rest with
           | segment :: segments => String c segment :: segments
           | [] => [String c EmptyString]
           end
  end.

(** The names of the [:placeholder] segments of a path template. *)
Definition placeholders (path : string) : list string :=
  flat_map (fun segment =>
              match segment with
              | String c name => if Ascii.eqb c ":"%char then [name] else []
              | EmptyString => []
              end)
    (split_path path).

(** Every placeholder of the path of the request has a value among its
    parameters. *)
Definition well_addressed (r : Request) : bool :=
  forallb (fun name =>
             match assoc name (parameters_of r) with
             | Some _ => true
             | None => false
             end)
    (placeholders (path r)).

(** A call settles in one step: it throws with nothing sent, or it
    sends one well-addressed request and reads the answer to it. *)
Definition settles_in_one_step (server : list Request -> Request -> Outcome Json)
    (key : option string) (m : Call Json) (log : list Request) : Prop :=
  (exists e, m log = (Thrown e, log))
  \/ (exists r,
        well_addressed r = true
        /\ m log = (read_response key (server log r), (log ++ [r])%list)).

(** A transport that fails every request with the same exception. *)
Definition server_failing (e : string) (log : list Request) (r : Request)
    : Outcome Json :=
  Thrown e.

(** A transport that answers every request with the same object. *)
Definition server_object (fields : list (string * Json)) (log : list Request)
    (r : Request) : Outcome Json :=
  Returned (JObject fields).

(** A method sends the requests [sent], whatever the transport answers
    and whatever was sent before. *)
Definition sends {A : Type}
    (m : (list Request -> Request -> Outcome Json) -> Call A)
    (sent : list Request) : Prop :=
  forall server log, snd (m server log) = (log ++ sent)%list.

(** The object the constructor of [Hop] builds for a credential of the
    given scheme. *)
Definition hop_of (tag : APIAuthorizationType) (baseUrl authorization : string)
    : Hop.t :=
  {| Hop.authType := tag;
     Hop.sdks := {| Hop.sdk_ignite := sdk_of tag baseUrl authorization;
                    Hop.sdk_user := sdk_of tag baseUrl authorization;
                    Hop.sdk_pipe := sdk_of tag baseUrl authorization;
                    Hop.sdk_projects := sdk_of tag baseUrl authorization;
                    Hop.sdk_registry := sdk_of tag baseUrl authorization;
                    Hop.sdk_channels := sdk_of tag baseUrl authorization |};
     Hop.facade := hop_facade |}.

(** A method running on its instance does what the function of [this]
    does and leaves the instance as it found it. *)
Definition leaves_instance {This A : Type} (m : Stateful.Method This A)
    (f : This -> Call A) : Prop :=
  forall this log, m this log = (fst (f this log), this, snd (f this log)).

(** * Properties *)

(** ** Calls and the request log *)

Lemma truthy_nonempty (s : string) : truthy s = true <-> s <> "".
Proof.
  unfold truthy. destruct (String.eqb_spec s ""); simpl; split; congruence.
Qed.

Section Transport.

Variable server : list Request -> Request -> Outcome Json.

(** A dispatched request is appended to the log, whatever the answer. *)
Lemma dispatch_log (r : Request) (log : list Request) :
  snd (Client.dispatch server r log) = (log ++ [r])%list.
Proof. reflexivity. Qed.

(** Reading a member of the answer sends nothing more. *)
Lemma dispatch_destructure_log (r : Request) (k : string) (log : list Request) :
  snd ((response <- Client.dispatch server r ;; lift (destructure k response)) log)
  = (log ++ [r])%list.
Proof.
  unfold bind, Client.dispatch, lift. destruct (server log r); reflexivity.
Qed.

Lemma dispatch_discard_log (r : Request) (log : list Request) :
  snd ((Client.dispatch server r ;;; ret tt) log) = (log ++ [r])%list.
Proof.
  unfold bind, Client.dispatch, ret. destruct (server log r); reflexivity.
Qed.

End Transport.

(** ** The dual-mode lookup of [getDeployment] *)

Section GetDeployment.

Variable validateId : string -> IdPrefix -> bool.
Variable server : list Request -> Request -> Outcome Json.

Lemma getDeployment_lookup_log (team : option string) (s : string)
    (log : list Request) :
  dispatches_only (Ignite.getDeployment_lookup validateId server team s) log
    (if validateId s deployment then get_by_id_request team s
     else search_by_name_request s).
Proof.
  unfold dispatches_only, Ignite.getDeployment_lookup, Client.get.
  destruct (validateId s deployment).
  - rewrite dispatch_destructure_log. unfold get_by_id_request.
    destruct team as [id|]; simpl; [destruct (truthy id)|]; reflexivity.
  - apply dispatch_destructure_log.
Qed.

(** The argument analysis sends nothing; when it passes, the name or
    ID is [name_or_id_argument] and the team is truthy if present. *)
Lemma getDeployment_arguments_cases (this : Ignite.t) (a1 : string)
    (a2 : option string) (log : list Request) :
  throws_before_dispatch (Ignite.getDeployment_arguments validateId this a1 a2) log
  \/ (exists team,
        Ignite.getDeployment_arguments validateId this a1 a2 log
        = (Returned (team, name_or_id_argument a1 a2), log)).
Proof.
  unfold throws_before_dispatch, Ignite.getDeployment_arguments,
    name_or_id_argument, Ignite.assertId.
  destruct (truthy a1); [|left; eexists; reflexivity].
  destruct (truthy_value a2) as [n|];
    destruct (authType (client this)); simpl;
    try (left; eexists; reflexivity);
    try (right; eexists; reflexivity).
  all: unfold bind; destruct (validateId a1 team); simpl;
    [right; eexists; reflexivity | left; eexists; reflexivity].
Qed.

Lemma getDeployment_cases (this : Ignite.t) (a1 : string) (a2 : option string)
    (log : list Request) :
  throws_before_dispatch (Ignite.getDeployment validateId server this a1 a2) log
  \/ (exists team,
        dispatches_only (Ignite.getDeployment validateId server this a1 a2) log
          (if validateId (name_or_id_argument a1 a2) deployment
           then get_by_id_request team (name_or_id_argument a1 a2)
           else search_by_name_request (name_or_id_argument a1 a2))).
Proof.
  destruct (getDeployment_arguments_cases this a1 a2 log) as [[e He]|[tm Ht]].
  - left. exists e. unfold Ignite.getDeployment, bind. rewrite He. reflexivity.
  - right. exists tm. unfold dispatches_only, Ignite.getDeployment, bind.
    rewrite Ht. simpl. apply getDeployment_lookup_log.
Qed.

(** C1. [getDeployment] looks a deployment up by ID exactly when the
    string validates as a deployment ID and by name otherwise: the
    lookup sends the one request chosen by [validateId]; every call
    either throws with nothing sent or sends that request for its name
    or ID argument; the calls that pass the team-ID policy do send it;
    and no search by name ever carries a string that validates as a
    deployment ID. *)
Theorem getDeployment_dual_mode :
  (forall team s log,
      dispatches_only (Ignite.getDeployment_lookup validateId server team s) log
        (if validateId s deployment then get_by_id_request team s
         else search_by_name_request s))
  /\ (forall this a1 a2 log,
        throws_before_dispatch (Ignite.getDeployment validateId server this a1 a2) log
        \/ (exists team,
              dispatches_only (Ignite.getDeployment validateId server this a1 a2) log
                (if validateId (name_or_id_argument a1 a2) deployment
                 then get_by_id_request team (name_or_id_argument a1 a2)
                 else search_by_name_request (name_or_id_argument a1 a2))))
  /\ (forall base cred s log,
        s <> "" ->
        dispatches_only
          (Ignite.getDeployment validateId server (sdk_of sk base cred) s None) log
          (if validateId s deployment then get_by_id_request None s
           else search_by_name_request s))
  /\ (forall tag base cred t s log,
        tag <> sk -> t <> "" -> s <> "" -> validateId t team = true ->
        dispatches_only
          (Ignite.getDeployment validateId server (sdk_of tag base cred) t (Some s)) log
          (if validateId s deployment then get_by_id_request (Some t) s
           else search_by_name_request s))
  /\ (forall this a1 a2 s,
        validateId s deployment = true ->
        ~ In (search_by_name_request s)
            (snd (Ignite.getDeployment validateId server this a1 a2 []))).
Proof.
  split; [exact getDeployment_lookup_log|].
  split; [exact getDeployment_cases|].
  split; [|split].
  - intros base cred s log Hs. apply truthy_nonempty in Hs.
    unfold dispatches_only, Ignite.getDeployment, Ignite.getDeployment_arguments, bind.
    simpl. rewrite Hs. simpl. apply getDeployment_lookup_log.
  - intros tag base cred t s log Htag Ht Hs Hv.
    apply truthy_nonempty in Ht. apply truthy_nonempty in Hs.
    unfold dispatches_only, Ignite.getDeployment, Ignite.getDeployment_arguments,
      Ignite.assertId, bind.
    simpl. rewrite Ht, Hs, Hv.
    destruct tag; try congruence; simpl; apply getDeployment_lookup_log.
  - intros this a1 a2 s Hv Hin.
    destruct (getDeployment_cases this a1 a2 []) as [[e He]|[tm Ht]].
    + rewrite He in Hin. exact Hin.
    + unfold dispatches_only in Ht. rewrite Ht in Hin. simpl in Hin.
      destruct Hin as [Heq|[]].
      destruct (validateId (name_or_id_argument a1 a2) deployment) eqn:E.
      * discriminate Heq.
      * inversion Heq as [Hname]. rewrite Hname in E. congruence.
Qed.

(** Under [bearer] and [pat], a first argument that fails the team
    check never gets a request out. *)
Lemma getDeployment_non_team_throws (tag : APIAuthorizationType)
    (base cred t s : string) (log : list Request) :
  tag <> sk -> validateId t team = false ->
  throws_before_dispatch
    (Ignite.getDeployment validateId server (sdk_of tag base cred) t (Some s)) log.
Proof.
  intros Htag Hv.
  unfold throws_before_dispatch, Ignite.getDeployment,
    Ignite.getDeployment_arguments, Ignite.assertId, bind. simpl.
  destruct (truthy t); [|eexists; reflexivity].
  destruct (truthy s); simpl.
  - destruct tag; try congruence; simpl; rewrite Hv; eexists; reflexivity.
  - destruct tag; try congruence; simpl; eexists; reflexivity.
Qed.

(** C5. The team-ID policy of [getDeployment] is settled before any
    request is sent: under [sk] a team ID together with a name or ID
    throws; under [bearer] or [pat] a single argument throws; and under
    [bearer] or [pat] a first argument that is no team ID throws, by
    the exception of [assertId] when both arguments are given. *)
Theorem getDeployment_team_policy :
  (forall base cred t s log,
      t <> "" -> s <> "" ->
      Ignite.getDeployment validateId server (sdk_of sk base cred) t (Some s) log
      = (Thrown "Team ID is not required for secret authorization", log))
  /\ (forall tag base cred a log,
        tag <> sk ->
        Ignite.getDeployment validateId server (sdk_of tag base cred) a None log
        = (Thrown "Team ID is required for bearer or PAT authorization", log))
  /\ (forall tag base cred t s log,
        tag <> sk -> validateId t team = false ->
        throws_before_dispatch
          (Ignite.getDeployment validateId server (sdk_of tag base cred) t (Some s)) log
        /\ (t <> "" -> s <> "" ->
            exists e,
              Ignite.assertId validateId t team log = (Thrown e, log)
              /\ Ignite.getDeployment validateId server (sdk_of tag base cred)
                   t (Some s) log = (Thrown e, log))).
Proof.
  split; [|split].
  - intros base cred t s log Ht Hs.
    apply truthy_nonempty in Ht. apply truthy_nonempty in Hs.
    unfold Ignite.getDeployment, Ignite.getDeployment_arguments, bind.
    simpl. rewrite Ht, Hs. reflexivity.
  - intros tag base cred a log Htag.
    unfold Ignite.getDeployment, Ignite.getDeployment_arguments, bind. simpl.
    destruct (truthy a); destruct tag; try congruence; reflexivity.
  - intros tag base cred t s log Htag Hv.
    assert (Hassert : Ignite.assertId validateId t team log
                      = (Thrown ("Invalid id: " ++ t ++ ". Expected "
                                   ++ prefix_name team ++ "_{string}"), log)).
    { unfold Ignite.assertId. rewrite Hv. reflexivity. }
    split; [apply getDeployment_non_team_throws; assumption|].
    intros Ht Hs. apply truthy_nonempty in Ht. apply truthy_nonempty in Hs.
    eexists. split; [exact Hassert|].
    unfold Ignite.getDeployment, Ignite.getDeployment_arguments, bind. simpl.
    rewrite Ht, Hs. destruct tag; try congruence; simpl; rewrite Hassert; reflexivity.
Qed.

End GetDeployment.

(** ** [createDeployment] *)

Section CreateDeployment.

Variable parseSize : string -> Outcome Z.
Variable server : list Request -> Request -> Outcome Json.

Lemma createDeployment_arguments_log (this : Ignite.t) (a1 : ConfigOrTeam)
    (a2 : option DeploymentConfig) (log : list Request) :
  snd (Ignite.createDeployment_arguments this a1 a2 log) = log.
Proof.
  unfold Ignite.createDeployment_arguments.
  destruct a1 as [id|config]; [destruct a2|];
    destruct (authType (client this)); reflexivity.
Qed.

(** Where the argument analysis passes: exactly on the matching shapes,
    and on a config followed by a second argument under [sk]. *)
Lemma createDeployment_arguments_pass (tag : APIAuthorizationType)
    (base cred : string) (a1 : ConfigOrTeam) (a2 : option DeploymentConfig)
    (team : option string) (config : DeploymentConfig) (log : list Request) :
  Ignite.createDeployment_arguments (sdk_of tag base cred) a1 a2 log
  = (Returned (team, config), log)
  <-> (tag <> sk /\ (exists id, a1 = IsTeam id /\ team = Some id) /\ a2 = Some config)
      \/ (tag = sk /\ a1 = IsConfig config /\ team = None).
Proof.
  unfold Ignite.createDeployment_arguments, ret, throw. simpl. split.
  - destruct a1 as [id|c]; [destruct a2 as [c|]|]; destruct tag; simpl;
      intros H; inversion H; subst.
    + left. split; [discriminate|]. split; [exists id; auto | reflexivity].
    + left. split; [discriminate|]. split; [exists id; auto | reflexivity].
    + right. auto.
  - intros [[Htag [[id [H1 Ht]] H2]] | [Htag [H1 Ht]]]; subst; simpl.
    + destruct tag; try congruence; reflexivity.
    + reflexivity.
Qed.

Lemma createDeployment_arguments_fail (this : Ignite.t) (a1 : ConfigOrTeam)
    (a2 : option DeploymentConfig) (e : string) (log log' : list Request) :
  Ignite.createDeployment_arguments this a1 a2 log = (Thrown e, log') ->
  Ignite.createDeployment parseSize server this a1 a2 log = (Thrown e, log).
Proof.
  intros H. pose proof (createDeployment_arguments_log this a1 a2 log) as Hl.
  rewrite H in Hl. simpl in Hl. subst log'.
  unfold Ignite.createDeployment, bind. rewrite H. reflexivity.
Qed.

(** The memory check and the dispatch that follow the analysis. *)
Lemma createDeployment_after_arguments (this : Ignite.t) (a1 : ConfigOrTeam)
    (a2 : option DeploymentConfig) (team : option string)
    (config : DeploymentConfig) (log : list Request) :
  Ignite.createDeployment_arguments this a1 a2 log = (Returned (team, config), log) ->
  match parseSize (ram (resources config)) with
  | Thrown e => Ignite.createDeployment parseSize server this a1 a2 log = (Thrown e, log)
  | Returned n =>
      if n <=? SIX_MB_IN_BYTES then
        Ignite.createDeployment parseSize server this a1 a2 log
        = (Thrown "Allocated memory must be greater than 6MB when creating a deployment.",
           log)
      else
        dispatches_only (Ignite.createDeployment parseSize server this a1 a2) log
          (create_deployment_request config (Some (team_query team)))
  end.
Proof.
  intros H.
  destruct (parseSize (ram (resources config))) as [n|e] eqn:Hp;
    [destruct (n <=? SIX_MB_IN_BYTES) eqn:Hn|];
    unfold dispatches_only, Ignite.createDeployment, bind; rewrite H;
    unfold lift; rewrite Hp; try rewrite Hn; try reflexivity.
  unfold Client.post, Client.dispatch.
  destruct (server log _); reflexivity.
Qed.

Lemma createDeployment_matching_shape (tag : APIAuthorizationType)
    (base cred : string) (a1 : ConfigOrTeam) (a2 : option DeploymentConfig)
    (config : DeploymentConfig) (log : list Request) :
  shape_matches tag a1 a2 = true ->
  config_argument a1 a2 = Some config ->
  Ignite.createDeployment_arguments (sdk_of tag base cred) a1 a2 log
  = (Returned (team_argument a1, config), log).
Proof.
  intros Hs Hc. apply createDeployment_arguments_pass.
  destruct a1 as [id|c]; destruct a2 as [c2|]; simpl in *; try discriminate.
  - left. inversion Hc. subst. split; [destruct tag; simpl in *; congruence|].
    split; [exists id; auto | reflexivity].
  - right. inversion Hc. subst. destruct tag; simpl in *; try discriminate. auto.
Qed.

Lemma log_grows (log : list Request) (r : Request) : (log ++ [r])%list <> log.
Proof.
  intros H. apply (f_equal (@length Request)) in H.
  rewrite length_app in H. simpl in H. lia.
Qed.

(** When a call of [createDeployment] gets a request out. *)
Lemma createDeployment_dispatch_iff (tag : APIAuthorizationType)
    (base cred : string) (a1 : ConfigOrTeam) (a2 : option DeploymentConfig)
    (log : list Request) :
  snd (Ignite.createDeployment parseSize server (sdk_of tag base cred) a1 a2 log) <> log
  <-> exists config n,
        parseSize (ram (resources config)) = Returned n
        /\ SIX_MB_IN_BYTES < n
        /\ ((tag <> sk /\ exists id, a1 = IsTeam id /\ a2 = Some config)
            \/ (tag = sk /\ a1 = IsConfig config)).
Proof.
  destruct (Ignite.createDeployment_arguments (sdk_of tag base cred) a1 a2 log)
    as [[[tm config]|e] log'] eqn:HA.
  - pose proof (createDeployment_arguments_log (sdk_of tag base cred) a1 a2 log) as Hl.
    rewrite HA in Hl. simpl in Hl. subst log'.
    pose proof (createDeployment_after_arguments _ _ _ _ _ _ HA) as Hafter.
    pose proof (proj1 (createDeployment_arguments_pass _ _ _ _ _ _ _ _) HA) as Hshape.
    split.
    + intros Hsent. exists config.
      destruct (parseSize (ram (resources config))) as [n|e].
      * exists n. split; [reflexivity|].
        destruct (n <=? SIX_MB_IN_BYTES) eqn:Hn.
        -- rewrite Hafter in Hsent. simpl in Hsent. congruence.
        -- apply Z.leb_gt in Hn. split; [exact Hn|].
           destruct Hshape as [[Ht [[id [H1 _]] H2]]|[Ht [H1 _]]].
           ++ left. split; [exact Ht|]. exists id. auto.
           ++ right. auto.
      * rewrite Hafter in Hsent. simpl in Hsent. congruence.
    + intros [config' [n [Hp [Hn Hcase]]]].
      assert (config' = config) as ->.
      { destruct Hshape as [[Ht [[id [H1 _]] H2]]|[Ht [H1 _]]];
          destruct Hcase as [[Ht' [id' [H1' H2']]]|[Ht' H1']]; congruence. }
      rewrite Hp in Hafter. apply Z.leb_gt in Hn. rewrite Hn in Hafter.
      unfold dispatches_only in Hafter. rewrite Hafter. apply log_grows.
  - rewrite (createDeployment_arguments_fail _ _ _ _ _ _ HA). simpl.
    split; [congruence|].
    intros [config [n [_ [_ Hcase]]]]. exfalso.
    assert (exists tm, Ignite.createDeployment_arguments (sdk_of tag base cred) a1 a2 log
                       = (Returned (tm, config), log)) as [tm Hpass].
    { destruct Hcase as [[Ht [id [H1 H2]]]|[Ht H1]].
      - exists (Some id). apply createDeployment_arguments_pass.
        left. split; [exact Ht|]. split; [exists id; auto | exact H2].
      - exists None. apply createDeployment_arguments_pass. right. auto. }
    congruence.
Qed.

(** Under [sk] a second argument after the config is not read. *)
Lemma createDeployment_second_argument_unread (base cred : string)
    (config : DeploymentConfig) (a2 : option DeploymentConfig) (log : list Request) :
  Ignite.createDeployment parseSize server (sdk_of sk base cred) (IsConfig config) a2 log
  = Ignite.createDeployment parseSize server (sdk_of sk base cred) (IsConfig config) None
      log.
Proof. reflexivity. Qed.


(** C3. [createDeployment] throws before any request when the shape of
    its arguments disagrees with the scheme of the client: a team ID in
    first place under [sk], with or without a config after it, and a
    config in first place under [bearer] or [pat].  Among the calls in
    which a config comes alone, only the matching shape gets a request
    out, and it does so once the memory check passes. *)
Theorem createDeployment_shape_policy :
  (forall base cred id a2 log,
      throws_before_dispatch
        (Ignite.createDeployment parseSize server (sdk_of sk base cred) (IsTeam id) a2)
        log)
  /\ (forall tag base cred config a2 log,
        tag <> sk ->
        throws_before_dispatch
          (Ignite.createDeployment parseSize server (sdk_of tag base cred)
             (IsConfig config) a2) log)
  /\ (forall tag base cred a1 a2 log,
        config_comes_alone a1 a2 ->
        snd (Ignite.createDeployment parseSize server (sdk_of tag base cred) a1 a2 log)
        <> log ->
        shape_matches tag a1 a2 = true)
  /\ (forall tag base cred a1 a2 config n log,
        shape_matches tag a1 a2 = true ->
        config_argument a1 a2 = Some config ->
        parseSize (ram (resources config)) = Returned n ->
        SIX_MB_IN_BYTES < n ->
        dispatches_only
          (Ignite.createDeployment parseSize server (sdk_of tag base cred) a1 a2) log
          (create_deployment_request config (Some (team_query (team_argument a1))))).
Proof.
  split; [|split; [|split]].
  - intros base cred id a2 log.
    destruct a2 as [c|]; eexists;
      apply createDeployment_arguments_fail with (log' := log); reflexivity.
  - intros tag base cred config a2 log Htag.
    eexists. apply createDeployment_arguments_fail with (log' := log).
    unfold Ignite.createDeployment_arguments. simpl.
    destruct tag; try congruence; reflexivity.
  - intros tag base cred a1 a2 log Halone Hsent.
    apply createDeployment_dispatch_iff in Hsent.
    destruct Hsent as [config [n [_ [_ [[Ht [id [H1 H2]]]|[Ht H1]]]]]]; subst; simpl in *.
    + destruct tag; try congruence; reflexivity.
    + rewrite Halone. reflexivity.
  - intros tag base cred a1 a2 config n log Hs Hc Hp Hn.
    pose proof (createDeployment_after_arguments _ _ _ _ _ _
                  (createDeployment_matching_shape tag base cred a1 a2 config log Hs Hc))
      as Hafter.
    rewrite Hp in Hafter. apply Z.leb_gt in Hn. rewrite Hn in Hafter. exact Hafter.
Qed.

(** C10, as the code has it.  Under [bearer] and [pat],
    [createDeployment] dispatches the POST for any first argument,
    team-prefixed or not, once the memory check passes: the prefix is
    never looked at.  The query carries the team when the string is not
    empty and is empty for the empty string.  [getDeployment], in
    contrast, throws on a first argument that fails the team check. *)
Theorem createDeployment_team_not_validated :
  forall tag base cred t config n log,
    tag <> sk ->
    parseSize (ram (resources config)) = Returned n ->
    SIX_MB_IN_BYTES < n ->
    dispatches_only
      (Ignite.createDeployment parseSize server (sdk_of tag base cred)
         (IsTeam t) (Some config)) log
      (create_deployment_request config
         (Some (if (t =? "")%string then [] else [("team", t)])))
    /\ (forall validateId s,
          validateId t team = false ->
          throws_before_dispatch
            (Ignite.getDeployment validateId server (sdk_of tag base cred) t (Some s))
            log).
Proof.
  intros tag base cred t config n log Htag Hp Hn. split.
  - assert (Hs : shape_matches tag (IsTeam t) (Some config) = true)
      by (destruct tag; try congruence; reflexivity).
    pose proof (createDeployment_after_arguments _ _ _ _ _ _
                  (createDeployment_matching_shape tag base cred (IsTeam t) (Some config)
                     config log Hs eq_refl)) as Hafter.
    rewrite Hp in Hafter. apply Z.leb_gt in Hn. rewrite Hn in Hafter.
    unfold team_argument, team_query, truthy in Hafter.
    destruct (t =? "")%string; exact Hafter.
  - intros validateId s Hv. apply getDeployment_non_team_throws; assumption.
Qed.

End CreateDeployment.

(** ** Listing deployments *)

Section ListDeployments.

Variable server : list Request -> Request -> Outcome Json.

(** C4. [getAllDeployments] throws before any request when the scheme
    is [bearer] or [pat] and no team ID is given, and when the scheme
    is [sk] and one is given; otherwise it dispatches
    [GET /v1/ignite/deployments], with the team as the only query
    parameter when one was given and none when not.  A team ID is not
    the empty string. *)
Theorem getAllDeployments_team_policy :
  forall tag base cred teamId log,
    teamId <> Some "" ->
    match tag, teamId with
    | sk, Some _ =>
        Ignite.getAllDeployments server (sdk_of tag base cred) teamId log
        = (Thrown "Team ID is not required for secret authorization", log)
    | sk, None =>
        dispatches_only (Ignite.getAllDeployments server (sdk_of tag base cred) teamId)
          log (list_deployments_request (Some []))
    | _, None =>
        Ignite.getAllDeployments server (sdk_of tag base cred) teamId log
        = (Thrown "Team ID is required for Bearer or PAT authorization", log)
    | _, Some id =>
        dispatches_only (Ignite.getAllDeployments server (sdk_of tag base cred) teamId)
          log (list_deployments_request (Some [("team", id)]))
    end.
Proof.
  intros tag base cred teamId log Hne.
  assert (Ht : forall id, teamId = Some id -> truthy id = true).
  { intros id ->. apply truthy_nonempty. congruence. }
  unfold dispatches_only, Ignite.getAllDeployments, Client.get.
  destruct teamId as [id|]; [rewrite <- (Ht id eq_refl)|]; destruct tag; simpl;
    try reflexivity; try rewrite (Ht id eq_refl); simpl;
    try reflexivity; rewrite dispatch_destructure_log; unfold team_query;
    try rewrite (Ht id eq_refl); reflexivity.
Qed.

(** The empty string in the place of the team ID counts as no team ID. *)
Lemma getAllDeployments_empty_team (this : Ignite.t) (log : list Request) :
  Ignite.getAllDeployments server this (Some "") log
  = Ignite.getAllDeployments server this None log.
Proof. reflexivity. Qed.

(** X13. Away from [pat] without a team ID, the two list operations agree:
    both throw the same exception, or both dispatch a GET of the same
    path with the same query parameters. *)
Lemma list_deployments_agree (tag : APIAuthorizationType) (base cred : string)
    (teamId : option string) (log : list Request) :
  (tag = pat -> truthy_opt teamId = true) ->
  (exists e,
      Ignite.getAllDeployments server (sdk_of tag base cred) teamId log = (Thrown e, log)
      /\ EarlyIgnite.getDeployments server (early_of tag base cred) teamId log
         = (Thrown e, log))
  \/ (exists r1 r2,
        dispatches_only (Ignite.getAllDeployments server (sdk_of tag base cred) teamId)
          log r1
        /\ dispatches_only (EarlyIgnite.getDeployments server (early_of tag base cred) teamId)
             log r2
        /\ method r1 = method r2 /\ path r1 = path r2
        /\ parameters_of r1 = parameters_of r2).
Proof.
  intros Hpat.
  unfold dispatches_only, Ignite.getAllDeployments, EarlyIgnite.getDeployments, Client.get.
  destruct (truthy_opt teamId) eqn:Ht; destruct tag; simpl;
    try (specialize (Hpat eq_refl); discriminate);
    try (left; eexists; split; reflexivity);
    right; do 2 eexists; rewrite !dispatch_destructure_log;
    (split; [reflexivity|]); (split; [reflexivity|]);
    (split; [reflexivity|]); (split; [reflexivity|]);
    destruct teamId as [id|]; simpl in *; try rewrite Ht; try discriminate; reflexivity.
Qed.

(** C9, at the input where the code departs from it.  Under [pat] and
    without a team ID, [getAllDeployments] throws before any request,
    while [getDeployments] of the earlier class dispatches
    [GET /v1/ignite/deployments] without parameters. *)
Theorem getDeployments_pat_without_team :
  forall base cred log,
    Ignite.getAllDeployments server (sdk_of pat base cred) None log
    = (Thrown "Team ID is required for Bearer or PAT authorization", log)
    /\ dispatches_only (EarlyIgnite.getDeployments server (early_of pat base cred) None)
         log (list_deployments_request None).
Proof.
  intros base cred log. split; [reflexivity|].
  unfold dispatches_only, EarlyIgnite.getDeployments, Client.get. simpl.
  apply dispatch_destructure_log.
Qed.

End ListDeployments.

(** ** The facade of [Hop] *)

Section Facade.

Variable validateId : string -> IdPrefix -> bool.
Variable parseSize : string -> Outcome Z.
Variable server : list Request -> Request -> Outcome Json.

Lemma updateContainerState_log (this : Ignite.t) (container : string)
    (state : ContainerState) (log : list Request) :
  dispatches_only (Ignite.updateContainerState server this container state) log
    (container_state_request container state).
Proof.
  unfold dispatches_only, Ignite.updateContainerState, Client.patch.
  apply dispatch_discard_log.
Qed.

Lemma forget_log {A : Type} (m : Call A) (log : list Request) :
  snd (Hop.forget m log) = snd (m log).
Proof.
  unfold Hop.forget, bind, ret. destruct (m log) as [[a|e] log']; reflexivity.
Qed.

(** C6. [hop.ignite.containers.stop] and [start] each send exactly one
    [PATCH /v1/ignite/containers/:container_id/state], with the state
    [STOPPED] and [RUNNING] in its body; the request depends on the
    container ID alone, and the object is the same after the call. *)
Theorem containers_stop_start_single_request :
  forall hop container log,
    dispatches_only (Hop.containers_stop server hop container) log
      (container_state_request container STOPPED)
    /\ dispatches_only (Hop.containers_start server hop container) log
         (container_state_request container RUNNING)
    /\ Hop.step validateId parseSize server (hop, log) (Hop.call_containers_stop container)
       = (hop, (log ++ [container_state_request container STOPPED])%list)
    /\ Hop.step validateId parseSize server (hop, log) (Hop.call_containers_start container)
       = (hop, (log ++ [container_state_request container RUNNING])%list).
Proof.
  intros hop container log.
  assert (Hstop := updateContainerState_log (Hop.sdk_ignite (Hop.sdks hop))
                     container STOPPED log).
  assert (Hstart := updateContainerState_log (Hop.sdk_ignite (Hop.sdks hop))
                      container RUNNING log).
  repeat split; try assumption; unfold Hop.step; simpl; f_equal;
    rewrite forget_log; assumption.
Qed.

End Facade.

(** ** The scheme tag *)

Lemma getIdPrefix_tagged (tag : APIAuthorizationType) (suffix : string) :
  getIdPrefix (auth_name tag ++ "_" ++ suffix) = auth_name tag.
Proof. destruct tag; reflexivity. Qed.

Lemma getAuthType_prefix (cred : string) (tag : APIAuthorizationType) :
  getAuthType cred = Some tag <-> getIdPrefix cred = auth_name tag.
Proof.
  unfold getAuthType.
  destruct (String.eqb_spec (getIdPrefix cred) "bearer") as [E1|N1];
    [|destruct (String.eqb_spec (getIdPrefix cred) "pat") as [E2|N2];
      [|destruct (String.eqb_spec (getIdPrefix cred) "sk") as [E3|N3]]];
    destruct tag; simpl; split; intros H; try congruence;
    try (rewrite H in *; discriminate).
Qed.

Lemma new_objects_tag (cred base : string) (hop : Hop.t) :
  Hop.new cred base = Some hop ->
  getAuthType cred = Some (Hop.authType hop)
  /\ (forall n, authType (client (Hop.instance (Hop.sdks hop) n)) = Hop.authType hop)
  /\ Hop.facade hop = hop_facade.
Proof.
  unfold Hop.new, Hop.new_SDK, new_APIClient.
  destruct (getAuthType cred) as [tag|]; [|discriminate].
  intros H. inversion H. subst. simpl.
  split; [reflexivity|]. split; [|reflexivity]. intros n. destruct n; reflexivity.
Qed.

(** A credential with a tag is the name of the tag, alone or
    followed by an underscore and a suffix. *)
Lemma getIdPrefix_split (s : string) :
  s = getIdPrefix s \/ exists suffix, s = getIdPrefix s ++ "_" ++ suffix.
Proof.
  induction s as [|c rest IH]; simpl.
  - left. reflexivity.
  - destruct (Ascii.eqb_spec c "_"%char) as [Hc|Hc].
    + right. exists rest. subst c. reflexivity.
    + destruct IH as [IH|[suffix IH]].
      * left. f_equal. exact IH.
      * right. exists suffix. simpl. f_equal. exact IH.
Qed.

Lemma new_tagged (tag : APIAuthorizationType) (suffix base : string) :
  Hop.new (auth_name tag ++ "_" ++ suffix) base
  = Some (hop_of tag base (auth_name tag ++ "_" ++ suffix))
  /\ EarlyIgnite.new (auth_name tag ++ "_" ++ suffix) base
     = Some (early_of tag base (auth_name tag ++ "_" ++ suffix)).
Proof.
  assert (Htag : getAuthType (auth_name tag ++ "_" ++ suffix) = Some tag)
    by (apply getAuthType_prefix; apply getIdPrefix_tagged).
  split.
  - unfold Hop.new, Hop.new_SDK, new_APIClient. rewrite Htag. reflexivity.
  - unfold EarlyIgnite.new, new_APIClient. rewrite Htag.
    change (EarlyIgnite.tag_of_prefix (getIdPrefix (auth_name tag ++ "_" ++ suffix)))
      with (getAuthType (auth_name tag ++ "_" ++ suffix)).
    rewrite Htag. reflexivity.
Qed.

(** ** Methods leave their instance as it is *)

Section Instances.

Variable validateId : string -> IdPrefix -> bool.
Variable parseSize : string -> Outcome Z.
Variable server : list Request -> Request -> Outcome Json.

Lemma read_then_destructure_leaves (r : Request) (k : string) (this : BaseSDK)
    (log : list Request) :
  Stateful.bind (Stateful.dispatch server r)
    (fun response => Stateful.lift (destructure k response)) this log
  = (fst ((response <- Client.dispatch server r ;; lift (destructure k response)) log),
     this,
     snd ((response <- Client.dispatch server r ;; lift (destructure k response)) log)).
Proof.
  unfold Stateful.bind, Stateful.dispatch, Stateful.lift, bind, Client.dispatch, lift.
  destruct (server log r); reflexivity.
Qed.

Lemma await_leaves (r : Request) (this : BaseSDK) (log : list Request) :
  Stateful.bind (Stateful.dispatch server r) (fun _ => Stateful.ret tt) this log
  = (fst ((Client.dispatch server r ;;; ret tt) log), this,
     snd ((Client.dispatch server r ;;; ret tt) log)).
Proof.
  unfold Stateful.bind, Stateful.dispatch, Stateful.ret, bind, Client.dispatch, ret.
  destruct (server log r); reflexivity.
Qed.

Lemma forget_leaves {A : Type} (m : Stateful.Method BaseSDK A) (f : BaseSDK -> Call A) :
  leaves_instance m f ->
  leaves_instance (Stateful.forget m) (fun this => Hop.forget (f this)).
Proof.
  intros H this log. unfold Stateful.forget, Stateful.bind, Hop.forget, bind.
  rewrite (H this log). destruct (f this log) as [[a|e] log']; reflexivity.
Qed.

Lemma getAllDeployments_leaves (teamId : option string) :
  leaves_instance (Stateful.Ignite.getAllDeployments server teamId)
    (fun this => Ignite.getAllDeployments server this teamId).
Proof.
  intros this log.
  unfold Stateful.Ignite.getAllDeployments, Stateful.Ignite.this_authType,
    Ignite.getAllDeployments.
  unfold Stateful.bind at 1. unfold Stateful.read at 1.
  destruct (negb (is_sk (authType (client this))) && negb (truthy_opt teamId));
    [reflexivity|].
  unfold Stateful.bind at 1. unfold Stateful.read at 1.
  destruct (is_sk (authType (client this)) && truthy_opt teamId); [reflexivity|].
  unfold Stateful.get, Client.get. apply read_then_destructure_leaves.
Qed.

Lemma updateContainerState_leaves (container : string) (state : ContainerState) :
  leaves_instance (Stateful.Ignite.updateContainerState server container state)
    (fun this => Ignite.updateContainerState server this container state).
Proof.
  intros this log.
  unfold Stateful.Ignite.updateContainerState, Ignite.updateContainerState,
    Stateful.patch, Client.patch.
  apply await_leaves.
Qed.

Lemma createDeployment_leaves (a1 : ConfigOrTeam) (a2 : option DeploymentConfig) :
  leaves_instance (Stateful.Ignite.createDeployment parseSize server a1 a2)
    (fun this => Ignite.createDeployment parseSize server this a1 a2).
Proof.
  intros this log.
  assert (Hargs : Stateful.Ignite.createDeployment_arguments a1 a2 this log
                  = (fst (Ignite.createDeployment_arguments this a1 a2 log), this,
                     snd (Ignite.createDeployment_arguments this a1 a2 log))).
  { unfold Stateful.Ignite.createDeployment_arguments, Stateful.Ignite.this_authType,
      Ignite.createDeployment_arguments, Stateful.bind, Stateful.read.
    destruct a1 as [id|config]; [destruct a2 as [config|]|];
      destruct (authType (client this)); reflexivity. }
  destruct (Ignite.createDeployment_arguments this a1 a2 log)
    as [[[tm config]|e] log'] eqn:HA; simpl in Hargs;
    unfold Stateful.Ignite.createDeployment, Ignite.createDeployment,
      Stateful.bind, bind; rewrite Hargs, HA; [|reflexivity].
  unfold Stateful.lift, lift.
  destruct (parseSize (ram (resources config))) as [n|e]; [|reflexivity].
  destruct (n <=? SIX_MB_IN_BYTES); [reflexivity|].
  unfold Stateful.post, Client.post, Stateful.dispatch, Client.dispatch.
  destruct (server log' _); reflexivity.
Qed.

Lemma getDeployment_leaves (a1 : string) (a2 : option string) :
  leaves_instance (Stateful.Ignite.getDeployment validateId server a1 a2)
    (fun this => Ignite.getDeployment validateId server this a1 a2).
Proof.
  intros this log.
  assert (Hargs : Stateful.Ignite.getDeployment_arguments validateId a1 a2 this log
                  = (fst (Ignite.getDeployment_arguments validateId this a1 a2 log), this,
                     snd (Ignite.getDeployment_arguments validateId this a1 a2 log))).
  { unfold Stateful.Ignite.getDeployment_arguments, Stateful.Ignite.this_authType,
      Stateful.Ignite.assertId, Ignite.getDeployment_arguments, Ignite.assertId,
      Stateful.bind, Stateful.read, bind.
    destruct (truthy a1); [|reflexivity].
    destruct (truthy_value a2); destruct (authType (client this)); simpl;
      try reflexivity; destruct (validateId a1 team); reflexivity. }
  assert (Hlookup : forall tm name log',
             Stateful.Ignite.getDeployment_lookup validateId server tm name this log'
             = (fst (Ignite.getDeployment_lookup validateId server tm name log'), this,
                snd (Ignite.getDeployment_lookup validateId server tm name log'))).
  { intros tm name log'.
    unfold Stateful.Ignite.getDeployment_lookup, Ignite.getDeployment_lookup,
      Stateful.get, Client.get.
    destruct (validateId name deployment); apply read_then_destructure_leaves. }
  destruct (Ignite.getDeployment_arguments validateId this a1 a2 log)
    as [[arguments|e] log'] eqn:HA; simpl in Hargs;
    unfold Stateful.Ignite.getDeployment, Ignite.getDeployment.
  - unfold Stateful.bind at 1. unfold bind at 1 2. rewrite Hargs, HA. apply Hlookup.
  - unfold Stateful.bind at 1. unfold bind at 1 2. rewrite Hargs, HA. reflexivity.
Qed.

Lemma getContainers_leaves (d : string) :
  leaves_instance (Stateful.Ignite.getContainers server d)
    (fun this => Ignite.getContainers server this d).
Proof.
  intros this log. unfold Stateful.Ignite.getContainers, Ignite.getContainers,
    Stateful.get, Client.get. apply read_then_destructure_leaves.
Qed.

Lemma createContainer_leaves (d : string) :
  leaves_instance (Stateful.Ignite.createContainer server d)
    (fun this => Ignite.createContainer server this d).
Proof.
  intros this log. unfold Stateful.Ignite.createContainer, Ignite.createContainer,
    Stateful.post, Client.post. apply read_then_destructure_leaves.
Qed.

Lemma getLogs_leaves (c : string) :
  leaves_instance (Stateful.Ignite.getLogs server c)
    (fun this => Ignite.getLogs server this c).
Proof.
  intros this log. unfold Stateful.Ignite.getLogs, Ignite.getLogs,
    Stateful.get, Client.get. apply read_then_destructure_leaves.
Qed.

Lemma deleteDeployment_leaves (d : string) :
  leaves_instance (Stateful.Ignite.deleteDeployment server d)
    (fun this => Ignite.deleteDeployment server this d).
Proof.
  intros this log. unfold Stateful.Ignite.deleteDeployment, Ignite.deleteDeployment,
    Stateful.delete, Client.delete. apply await_leaves.
Qed.

Lemma deleteContainer_leaves (c : string) :
  leaves_instance (Stateful.Ignite.deleteContainer server c)
    (fun this => Ignite.deleteContainer server this c).
Proof.
  intros this log. unfold Stateful.Ignite.deleteContainer, Ignite.deleteContainer,
    Stateful.delete, Client.delete. apply await_leaves.
Qed.

(** Every member of the class leaves its instance as it is. *)
Lemma member_leaves (name : string) (arguments : Stateful.Ignite.Arguments)
    (body : Stateful.Method BaseSDK Json) :
  Stateful.Ignite.member validateId parseSize server name arguments = Some body ->
  exists f, leaves_instance body f.
Proof.
  unfold Stateful.Ignite.member. destruct arguments as [a b|id|teamId|a b].
  - destruct (name =? "createDeployment")%string; [|discriminate].
    intros H. inversion H. eexists. apply createDeployment_leaves.
  - destruct (name =? "deleteDeployment")%string;
      [intros H; inversion H; eexists; apply forget_leaves, deleteDeployment_leaves|].
    destruct (name =? "getContainers")%string;
      [intros H; inversion H; eexists; apply getContainers_leaves|].
    destruct (name =? "createContainer")%string;
      [intros H; inversion H; eexists; apply createContainer_leaves|].
    destruct (name =? "deleteContainer")%string;
      [intros H; inversion H; eexists; apply forget_leaves, deleteContainer_leaves|].
    destruct (name =? "getLogs")%string;
      [intros H; inversion H; eexists; apply getLogs_leaves|discriminate].
  - destruct (name =? "getAllDeployments")%string; [|discriminate].
    intros H. inversion H. eexists. apply getAllDeployments_leaves.
  - destruct (name =? "getDeployment")%string; [|discriminate].
    intros H. inversion H. eexists. apply getDeployment_leaves.
Qed.

Lemma set_instance_same (hop : Hop.t) (n : Hop.SdkName) :
  {| Hop.authType := Hop.authType hop;
     Hop.sdks := Stateful.Hop.set_instance (Hop.sdks hop) n
                   (Hop.instance (Hop.sdks hop) n);
     Hop.facade := Hop.facade hop |} = hop.
Proof. destruct hop as [tag [i u p pr r c] f]. destruct n; reflexivity. Qed.

Lemma on_instance_leaves {A : Type} (n : Hop.SdkName) (m : Stateful.Method BaseSDK A)
    (f : BaseSDK -> Call A) :
  leaves_instance m f ->
  leaves_instance (Stateful.Hop.on_instance n m)
    (fun hop => f (Hop.instance (Hop.sdks hop) n)).
Proof.
  intros H hop log. unfold Stateful.Hop.on_instance. rewrite (H _ log).
  rewrite set_instance_same. reflexivity.
Qed.

(** An operation on the aggregate hands on the object it was called
    on. *)
Lemma perform_object (op : Stateful.Hop.Operation) (hop hop' : Hop.t)
    (log log' : list Request) (outcome : Outcome Json) :
  Stateful.Hop.perform validateId parseSize server op hop log
  = Some (outcome, hop', log') ->
  hop' = hop.
Proof.
  destruct op as [entry arguments|c|c]; simpl.
  - unfold Stateful.Hop.invoke.
    destruct (assoc entry (Hop.facade hop)) as [b|];
      [|intros H; inversion H; reflexivity].
    destruct (Stateful.Hop.class_member validateId parseSize server
                (Hop.bound_owner b) (Hop.bound_member b) arguments) as [body|] eqn:Hm;
      [|discriminate].
    destruct (Hop.this_arg b) as [n| |]; try (intros H; inversion H; reflexivity).
    unfold Stateful.Hop.class_member in Hm.
    destruct (Hop.bound_owner b); try discriminate.
    destruct (member_leaves _ _ _ Hm) as [f Hf].
    rewrite (on_instance_leaves n body f Hf hop log).
    intros H. inversion H. reflexivity.
  - unfold Stateful.Hop.containers_stop.
    rewrite (on_instance_leaves Hop.ignite _ _
               (forget_leaves _ _ (updateContainerState_leaves c STOPPED)) hop log).
    intros H. inversion H. reflexivity.
  - unfold Stateful.Hop.containers_start.
    rewrite (on_instance_leaves Hop.ignite _ _
               (forget_leaves _ _ (updateContainerState_leaves c RUNNING)) hop log).
    intros H. inversion H. reflexivity.
Qed.

Lemma session_object (ops : list Stateful.Hop.Operation) (hop hop' : Hop.t)
    (log log' : list Request) :
  Stateful.Hop.session validateId parseSize server ops hop log = Some (hop', log') ->
  hop' = hop.
Proof.
  revert hop log. induction ops as [|op ops IH]; intros hop log; simpl.
  - intros H. inversion H. reflexivity.
  - destruct (Stateful.Hop.perform validateId parseSize server op hop log)
      as [[[outcome hop1] log1]|] eqn:Hop1; [|discriminate].
    intros H. apply IH in H. apply perform_object in Hop1. congruence.
Qed.

(** On an object with the facade of the constructor, an operation of
    the facade is the method of the ignite SDK on the ignite SDK
    instance. *)
Lemma perform_operation (hop : Hop.t) (c : Hop.FacadeCall) (log : list Request) :
  Hop.facade hop = hop_facade ->
  Stateful.Hop.perform validateId parseSize server (Stateful.Hop.operation_of c) hop log
  = Some (fst (Hop.perform validateId parseSize server hop c log), hop,
          snd (Hop.perform validateId parseSize server hop c log)).
Proof.
  intros Hf.
  destruct c; simpl;
    unfold Stateful.Hop.invoke, Hop.call_bound; try rewrite Hf; simpl; f_equal.
  - apply (on_instance_leaves Hop.ignite _ _ (createDeployment_leaves _ _)).
  - apply (on_instance_leaves Hop.ignite _ _
             (forget_leaves _ _ (deleteDeployment_leaves _))).
  - apply (on_instance_leaves Hop.ignite _ _ (getAllDeployments_leaves _)).
  - apply (on_instance_leaves Hop.ignite _ _ (getDeployment_leaves _ _)).
  - apply (on_instance_leaves Hop.ignite _ _ (getContainers_leaves _)).
  - apply (on_instance_leaves Hop.ignite _ _ (createContainer_leaves _)).
  - apply (on_instance_leaves Hop.ignite _ _
             (forget_leaves _ _ (deleteContainer_leaves _))).
  - apply (on_instance_leaves Hop.ignite _ _ (getLogs_leaves _)).
  - apply (on_instance_leaves Hop.ignite _ _
             (forget_leaves _ _ (updateContainerState_leaves _ STOPPED))).
  - apply (on_instance_leaves Hop.ignite _ _
             (forget_leaves _ _ (updateContainerState_leaves _ RUNNING))).
Qed.

Lemma session_operations (cs : list Hop.FacadeCall) (hop : Hop.t) (log : list Request) :
  Hop.facade hop = hop_facade ->
  Stateful.Hop.session validateId parseSize server (map Stateful.Hop.operation_of cs)
    hop log
  = Some (hop, snd (Hop.run validateId parseSize server (hop, log) cs)).
Proof.
  intros Hf. revert log. induction cs as [|c cs IH]; intros log; [reflexivity|].
  simpl. rewrite (perform_operation hop c log Hf). rewrite IH. reflexivity.
Qed.

Lemma early_getDeployments_leaves (teamId : option string) :
  leaves_instance (Stateful.EarlyIgnite.getDeployments server teamId)
    (fun this => EarlyIgnite.getDeployments server this teamId).
Proof.
  intros this log.
  unfold Stateful.EarlyIgnite.getDeployments, Stateful.EarlyIgnite.this_authType,
    EarlyIgnite.getDeployments.
  unfold Stateful.bind at 1. unfold Stateful.read at 1.
  destruct (is_bearer (EarlyIgnite.authType this) && negb (truthy_opt teamId));
    [reflexivity|].
  unfold Stateful.bind at 1. unfold Stateful.read at 1.
  destruct (truthy_opt teamId && is_sk (EarlyIgnite.authType this)); [reflexivity|].
  unfold Stateful.get, Client.get, Stateful.bind, Stateful.dispatch, Stateful.lift,
    bind, Client.dispatch, lift.
  destruct (server log _); reflexivity.
Qed.

Lemma early_createDeployment_leaves (a1 : ConfigOrTeam) (a2 : option DeploymentConfig) :
  leaves_instance (Stateful.EarlyIgnite.createDeployment parseSize server a1 a2)
    (fun this => EarlyIgnite.createDeployment parseSize server this a1 a2).
Proof.
  intros this log.
  assert (Hargs : Stateful.EarlyIgnite.createDeployment_arguments a1 a2 this log
                  = (fst (EarlyIgnite.createDeployment_arguments this a1 a2 log), this,
                     snd (EarlyIgnite.createDeployment_arguments this a1 a2 log))).
  { unfold Stateful.EarlyIgnite.createDeployment_arguments,
      Stateful.EarlyIgnite.this_authType, EarlyIgnite.createDeployment_arguments,
      Stateful.bind, Stateful.read.
    destruct a1 as [id|config]; [destruct a2 as [config|]|];
      destruct (EarlyIgnite.authType this); reflexivity. }
  destruct (EarlyIgnite.createDeployment_arguments this a1 a2 log)
    as [[[tm config]|e] log'] eqn:HA; simpl in Hargs;
    unfold Stateful.EarlyIgnite.createDeployment, EarlyIgnite.createDeployment,
      Stateful.bind, bind; rewrite Hargs, HA; [|reflexivity].
  unfold Stateful.lift, lift.
  destruct (parseSize (ram (resources config))) as [n|e]; [|reflexivity].
  destruct (n <=? SIX_MB_IN_BYTES); [reflexivity|].
  unfold Stateful.post, Client.post, Stateful.dispatch, Client.dispatch.
  destruct (server log' _); reflexivity.
Qed.

Lemma early_session_instance (cs : list Stateful.EarlyIgnite.MethodCall)
    (this : EarlyIgnite.t) (log : list Request) :
  fst (Stateful.EarlyIgnite.session parseSize server cs this log) = this.
Proof.
  revert log. induction cs as [|c cs IH]; intros log; [reflexivity|].
  simpl.
  assert (H : exists outcome log',
             Stateful.EarlyIgnite.perform parseSize server c this log
             = (outcome, this, log')).
  { destruct c as [teamId|a b]; simpl.
    - rewrite (early_getDeployments_leaves teamId this log). eauto.
    - rewrite (early_createDeployment_leaves a b this log). eauto. }
  destruct H as [outcome [log' H]]. rewrite H. apply IH.
Qed.

End Instances.

(** C7.  The scheme tag of a credential is the tag its prefix names: a
    credential written [tag_suffix] gets [tag], and a credential with a
    tag is the name of that tag, alone or followed by an underscore and
    a suffix.  On a credential written [tag_suffix] the constructor of
    [Hop] and the constructor of the earlier [Ignite] class build their
    object, with the tag in the object and in the client of every SDK;
    an object they build for any credential holds the tag of that
    credential.  No operation assigns a member: after any sequence of
    operations the object is the one the sequence started on, so that
    every operation reads the tag the constructor stored. *)
Theorem authType_fixed_at_construction :
  (forall tag suffix, getAuthType (auth_name tag ++ "_" ++ suffix) = Some tag)
  /\ (forall cred tag,
        getAuthType cred = Some tag ->
        cred = auth_name tag \/ exists suffix, cred = auth_name tag ++ "_" ++ suffix)
  /\ (forall tag suffix base,
        Hop.new (auth_name tag ++ "_" ++ suffix) base
        = Some (hop_of tag base (auth_name tag ++ "_" ++ suffix))
        /\ EarlyIgnite.new (auth_name tag ++ "_" ++ suffix) base
           = Some (early_of tag base (auth_name tag ++ "_" ++ suffix)))
  /\ (forall cred base hop,
        Hop.new cred base = Some hop ->
        getAuthType cred = Some (Hop.authType hop)
        /\ (forall n, authType (client (Hop.instance (Hop.sdks hop) n)) = Hop.authType hop))
  /\ (forall cred base i,
        EarlyIgnite.new cred base = Some i ->
        getAuthType cred = Some (EarlyIgnite.authType i)
        /\ authType (EarlyIgnite.client i) = EarlyIgnite.authType i)
  /\ (forall validateId parseSize server ops hop log hop' log',
        Stateful.Hop.session validateId parseSize server ops hop log = Some (hop', log') ->
        hop' = hop)
  /\ (forall validateId parseSize server cs hop log,
        Hop.facade hop = hop_facade ->
        Stateful.Hop.session validateId parseSize server
          (map Stateful.Hop.operation_of cs) hop log
        = Some (hop, snd (Hop.run validateId parseSize server (hop, log) cs)))
  /\ (forall parseSize server cs this log,
        fst (Stateful.EarlyIgnite.session parseSize server cs this log) = this).
Proof.
  split; [|split; [|split; [|split; [|split; [|split; [|split]]]]]].
  - intros tag suffix. apply getAuthType_prefix. apply getIdPrefix_tagged.
  - intros cred tag Htag. apply getAuthType_prefix in Htag.
    destruct (getIdPrefix_split cred) as [H|[suffix H]]; rewrite Htag in H.
    + left. exact H.
    + right. exists suffix. exact H.
  - exact new_tagged.
  - intros cred base hop Hnew.
    destruct (new_objects_tag cred base hop Hnew) as [Htag [Hsdk _]].
    split; [exact Htag | exact Hsdk].
  - intros cred base i.
    unfold EarlyIgnite.new, new_APIClient, EarlyIgnite.tag_of_prefix, getAuthType.
    destruct (getIdPrefix cred =? "bearer")%string;
      [|destruct (getIdPrefix cred =? "pat")%string;
        [|destruct (getIdPrefix cred =? "sk")%string]];
      intros H; inversion H; subst; simpl; split; reflexivity.
  - intros validateId parseSize server ops hop log hop' log'.
    apply session_object.
  - intros validateId parseSize server cs hop log. apply session_operations.
  - intros parseSize server cs this log. apply early_session_instance.
Qed.

(** ** Bindings of the facade *)

(** C8, where the code departs from it.  Two entries of the facade are
    not bound to the instance that defines their method:
    [ignite.gateways.get] is bound to [this.ignite], which is
    [undefined] while the constructor evaluates the object literal, and
    [channels.create] is bound to the ignite SDK.  Every other entry is
    bound to its own instance.  A call of the first throws a
    [TypeError]; a call of the second runs on the ignite SDK. *)
Theorem facade_bindings_off_owner :
  filter (fun entry => negb (bound_to_owner (snd entry))) hop_facade
  = [ ("ignite.gateways.get",
       {| Hop.bound_owner := Hop.ignite; Hop.bound_member := "getGateway";
          Hop.this_arg := Hop.Undefined |});
      ("channels.create",
       {| Hop.bound_owner := Hop.channels; Hop.bound_member := "create";
          Hop.this_arg := Hop.Instance Hop.ignite |}) ]
  /\ (forall (A : Type) tag sdks (body : BaseSDK -> Call A) log,
        let hop := {| Hop.authType := tag; Hop.sdks := sdks; Hop.facade := hop_facade |} in
        Hop.call_bound hop "ignite.gateways.get" body log
        = (Thrown "TypeError: Cannot read properties of undefined (reading 'client')", log)
        /\ Hop.call_bound hop "channels.create" body log
           = body (Hop.sdk_ignite sdks) log).
Proof.
  split; [reflexivity|]. intros A tag sdks body log hop. split; reflexivity.
Qed.

(** ** The properties at sample inputs *)

Lemma getDeployment_dual_mode_witness :
  ("my-app-name" <> ""
   /\ dispatches_only
        (Ignite.getDeployment validateId_prefix server_empty sample_sk "my-app-name" None)
        [] (search_by_name_request "my-app-name"))
  /\ (bearer <> sk /\ "team_abc123" <> "" /\ "deployment_abc123" <> ""
      /\ validateId_prefix "team_abc123" team = true
      /\ dispatches_only
           (Ignite.getDeployment validateId_prefix server_empty sample_bearer
              "team_abc123" (Some "deployment_abc123"))
           [] (get_by_id_request (Some "team_abc123") "deployment_abc123")).
Proof.
  destruct (getDeployment_dual_mode validateId_prefix server_empty)
    as [_ [_ [Hsk [Hteam _]]]].
  split.
  - split; [discriminate|].
    apply (Hsk sample_base "sk_c2FtcGxl" "my-app-name" []). discriminate.
  - split; [discriminate|]. split; [discriminate|]. split; [discriminate|].
    split; [reflexivity|].
    apply (Hteam bearer sample_base "bearer_c2FtcGxl" "team_abc123" "deployment_abc123" []);
      [discriminate | discriminate | discriminate | reflexivity].
Defined.

Lemma getDeployment_team_policy_witness :
  ("team_abc123" <> "" /\ "my-app-name" <> ""
   /\ Ignite.getDeployment validateId_prefix server_empty sample_sk
        "team_abc123" (Some "my-app-name") []
      = (Thrown "Team ID is not required for secret authorization", []))
  /\ (bearer <> sk
      /\ Ignite.getDeployment validateId_prefix server_empty sample_bearer
           "my-app-name" None []
         = (Thrown "Team ID is required for bearer or PAT authorization", []))
  /\ (bearer <> sk /\ validateId_prefix "project_abc123" team = false
      /\ throws_before_dispatch
           (Ignite.getDeployment validateId_prefix server_empty sample_bearer
              "project_abc123" (Some "my-app-name")) []).
Proof.
  destruct (getDeployment_team_policy validateId_prefix server_empty)
    as [Hsk [Hone Hteam]].
  split; [|split].
  - split; [discriminate|]. split; [discriminate|].
    apply (Hsk sample_base "sk_c2FtcGxl"); discriminate.
  - split; [discriminate|].
    apply (Hone bearer sample_base "bearer_c2FtcGxl"). discriminate.
  - split; [discriminate|]. split; [reflexivity|].
    apply (Hteam bearer sample_base "bearer_c2FtcGxl" "project_abc123" "my-app-name" []);
      [discriminate | reflexivity].
Defined.


Lemma createDeployment_shape_policy_witness :
  (pat <> sk
   /\ throws_before_dispatch
        (Ignite.createDeployment parseSize_units server_empty
           (sdk_of pat sample_base "pat_c2FtcGxl")
           (IsConfig (config_with_ram "512mb")) None) [])
  /\ (config_comes_alone (IsConfig (config_with_ram "512mb")) None
      /\ snd (Ignite.createDeployment parseSize_units server_empty sample_sk
                (IsConfig (config_with_ram "512mb")) None []) <> []
      /\ shape_matches sk (IsConfig (config_with_ram "512mb")) None = true)
  /\ (shape_matches bearer (IsTeam "team_abc123") (Some (config_with_ram "512mb")) = true
      /\ parseSize_units "512mb" = Returned 536870912
      /\ SIX_MB_IN_BYTES < 536870912
      /\ dispatches_only
           (Ignite.createDeployment parseSize_units server_empty sample_bearer
              (IsTeam "team_abc123") (Some (config_with_ram "512mb"))) []
           (create_deployment_request (config_with_ram "512mb")
              (Some [("team", "team_abc123")]))).
Proof.
  destruct (createDeployment_shape_policy parseSize_units server_empty)
    as [_ [Hconfig [Honly Hmatch]]].
  split; [|split].
  - split; [discriminate|]. apply Hconfig. discriminate.
  - assert (Hsent : snd (Ignite.createDeployment parseSize_units server_empty sample_sk
                           (IsConfig (config_with_ram "512mb")) None []) <> [])
      by (vm_compute; discriminate).
    split; [reflexivity|]. split; [exact Hsent|].
    apply (Honly sk sample_base "sk_c2FtcGxl" (IsConfig (config_with_ram "512mb")) None []);
      [reflexivity | exact Hsent].
  - split; [reflexivity|]. split; [reflexivity|]. split; [reflexivity|].
    apply (Hmatch bearer sample_base "bearer_c2FtcGxl" (IsTeam "team_abc123")
             (Some (config_with_ram "512mb")) (config_with_ram "512mb") 536870912 []);
      reflexivity.
Defined.

Lemma createDeployment_team_not_validated_witness :
  bearer <> sk
  /\ parseSize_units "512mb" = Returned 536870912
  /\ SIX_MB_IN_BYTES < 536870912
  /\ validateId_prefix "my-team" team = false
  /\ dispatches_only
       (Ignite.createDeployment parseSize_units server_empty sample_bearer
          (IsTeam "my-team") (Some (config_with_ram "512mb"))) []
       (create_deployment_request (config_with_ram "512mb") (Some [("team", "my-team")]))
  /\ throws_before_dispatch
       (Ignite.getDeployment validateId_prefix server_empty sample_bearer
          "my-team" (Some "my-app-name")) [].
Proof.
  assert (Htag : bearer <> sk) by discriminate.
  destruct (createDeployment_team_not_validated parseSize_units server_empty
              bearer sample_base "bearer_c2FtcGxl" "my-team" (config_with_ram "512mb")
              536870912 [] Htag eq_refl eq_refl) as [Hcreate Hget].
  split; [exact Htag|]. split; [reflexivity|]. split; [reflexivity|].
  split; [reflexivity|]. split; [exact Hcreate|].
  apply Hget. reflexivity.
Defined.

(** The claim C10 as the spec words it fails at the empty string: the
    POST goes out without a [team] parameter. *)
Lemma createDeployment_empty_team_counterexample :
  bearer <> sk
  /\ parseSize_units "512mb" = Returned 536870912
  /\ SIX_MB_IN_BYTES < 536870912
  /\ dispatches_only
       (Ignite.createDeployment parseSize_units server_empty sample_bearer
          (IsTeam "") (Some (config_with_ram "512mb"))) []
       (create_deployment_request (config_with_ram "512mb") (Some []))
  /\ ~ dispatches_only
         (Ignite.createDeployment parseSize_units server_empty sample_bearer
            (IsTeam "") (Some (config_with_ram "512mb"))) []
         (create_deployment_request (config_with_ram "512mb") (Some [("team", "")])).
Proof.
  split; [discriminate|]. split; [reflexivity|]. split; [reflexivity|].
  split; [reflexivity|]. unfold dispatches_only. vm_compute. discriminate.
Qed.

Lemma getAllDeployments_team_policy_witness :
  (Some "team_abc123" <> Some ""
   /\ dispatches_only
        (Ignite.getAllDeployments server_empty sample_bearer (Some "team_abc123")) []
        (list_deployments_request (Some [("team", "team_abc123")])))
  /\ (@None string <> Some ""
      /\ Ignite.getAllDeployments server_empty sample_bearer None []
         = (Thrown "Team ID is required for Bearer or PAT authorization", [])).
Proof.
  split; (split; [discriminate|]).
  - apply (getAllDeployments_team_policy server_empty bearer sample_base
             "bearer_c2FtcGxl" (Some "team_abc123") []). discriminate.
  - apply (getAllDeployments_team_policy server_empty bearer sample_base
             "bearer_c2FtcGxl" None []). discriminate.
Defined.

Lemma authType_fixed_at_construction_witness :
  getAuthType "sk_c2FtcGxl" = Some sk
  /\ ("sk_c2FtcGxl" = auth_name sk
      \/ exists suffix, "sk_c2FtcGxl" = auth_name sk ++ "_" ++ suffix)
  /\ Hop.new "sk_c2FtcGxl" sample_base = Some sample_hop
  /\ getAuthType "sk_c2FtcGxl" = Some (Hop.authType sample_hop)
  /\ EarlyIgnite.new "sk_c2FtcGxl" sample_base
     = Some (early_of sk sample_base "sk_c2FtcGxl")
  /\ getAuthType "sk_c2FtcGxl"
     = Some (EarlyIgnite.authType (early_of sk sample_base "sk_c2FtcGxl"))
  /\ Stateful.Hop.session validateId_prefix parseSize_units server_empty
       [Stateful.Hop.call_entry "ignite.deployments.getAll"
          (Stateful.Ignite.args_optional_id None);
        Stateful.Hop.call_stop "container_abc123"] sample_hop []
     = Some (sample_hop,
             [list_deployments_request (Some []);
              container_state_request "container_abc123" STOPPED])
  /\ sample_hop = sample_hop
  /\ Hop.facade sample_hop = hop_facade
  /\ Stateful.Hop.session validateId_prefix parseSize_units server_empty
       (map Stateful.Hop.operation_of
          [Hop.deployments_getAll None; Hop.call_containers_stop "container_abc123"])
       sample_hop []
     = Some (sample_hop,
             snd (Hop.run validateId_prefix parseSize_units server_empty (sample_hop, [])
                    [Hop.deployments_getAll None;
                     Hop.call_containers_stop "container_abc123"])).
Proof.
  destruct authType_fixed_at_construction
    as [Htag [Hshape [_ [Hhop [Hearly [Hsame [Hsession _]]]]]]].
  assert (Hnew : Hop.new "sk_c2FtcGxl" sample_base = Some sample_hop) by reflexivity.
  assert (Hnew' : EarlyIgnite.new "sk_c2FtcGxl" sample_base
                  = Some (early_of sk sample_base "sk_c2FtcGxl")) by reflexivity.
  assert (Hrun : Stateful.Hop.session validateId_prefix parseSize_units server_empty
                   [Stateful.Hop.call_entry "ignite.deployments.getAll"
                      (Stateful.Ignite.args_optional_id None);
                    Stateful.Hop.call_stop "container_abc123"] sample_hop []
                 = Some (sample_hop,
                         [list_deployments_request (Some []);
                          container_state_request "container_abc123" STOPPED]))
    by reflexivity.
  split; [exact (Htag sk "c2FtcGxl")|].
  split; [exact (Hshape "sk_c2FtcGxl" sk (Htag sk "c2FtcGxl"))|].
  split; [exact Hnew|].
  split; [exact (proj1 (Hhop "sk_c2FtcGxl" sample_base sample_hop Hnew))|].
  split; [exact Hnew'|].
  split; [exact (proj1 (Hearly "sk_c2FtcGxl" sample_base _ Hnew'))|].
  split; [exact Hrun|].
  split; [exact (Hsame validateId_prefix parseSize_units server_empty _ _ _ _ _ Hrun)|].
  split; [reflexivity|].
  exact (Hsession validateId_prefix parseSize_units server_empty
           [Hop.deployments_getAll None; Hop.call_containers_stop "container_abc123"]
           sample_hop [] eq_refl).
Defined.

(** * Further properties of the SDK *)

(** ** Every operation settles in one step *)

Section OneStep.

Variable validateId : string -> IdPrefix -> bool.
Variable parseSize : string -> Outcome Z.
Variable server : list Request -> Request -> Outcome Json.

Lemma dispatch_read (r : Request) (k : string) (log : list Request) :
  (response <- Client.dispatch server r ;; lift (destructure k response)) log
  = (read_response (Some k) (server log r), (log ++ [r])%list).
Proof.
  unfold bind, Client.dispatch, lift, read_response.
  destruct (server log r); reflexivity.
Qed.

Lemma dispatch_await (r : Request) (log : list Request) :
  Hop.forget (Client.dispatch server r ;;; ret tt) log
  = (read_response None (server log r), (log ++ [r])%list).
Proof.
  unfold Hop.forget, bind, Client.dispatch, ret, read_response.
  destruct (server log r); reflexivity.
Qed.

Lemma getAllDeployments_settles (this : Ignite.t) (teamId : option string)
    (log : list Request) :
  settles_in_one_step server (Some "deployments")
    (Ignite.getAllDeployments server this teamId) log.
Proof.
  unfold settles_in_one_step, Ignite.getAllDeployments, Client.get.
  destruct (negb (is_sk (authType (client this))) && negb (truthy_opt teamId));
    [left; eexists; reflexivity|].
  destruct (is_sk (authType (client this)) && truthy_opt teamId);
    [left; eexists; reflexivity|].
  right. eexists. split; [|apply dispatch_read]. reflexivity.
Qed.

Lemma getDeployment_settles (this : Ignite.t) (a1 : string) (a2 : option string)
    (log : list Request) :
  settles_in_one_step server (Some "deployment")
    (Ignite.getDeployment validateId server this a1 a2) log.
Proof.
  unfold settles_in_one_step.
  destruct (getDeployment_arguments_cases validateId this a1 a2 log)
    as [[e He]|[tm Ht]].
  - left. exists e. unfold Ignite.getDeployment, bind. rewrite He. reflexivity.
  - right. unfold Ignite.getDeployment, bind. rewrite Ht. simpl.
    unfold Ignite.getDeployment_lookup, Client.get.
    destruct (validateId (name_or_id_argument a1 a2) deployment);
      eexists; (split; [|apply dispatch_read]).
    + destruct tm as [id|]; [destruct (truthy id)|]; reflexivity.
    + reflexivity.
Qed.

Lemma createDeployment_settles (this : Ignite.t) (a1 : ConfigOrTeam)
    (a2 : option DeploymentConfig) (log : list Request) :
  settles_in_one_step server (Some "deployment")
    (Ignite.createDeployment parseSize server this a1 a2) log.
Proof.
  unfold settles_in_one_step.
  destruct (Ignite.createDeployment_arguments this a1 a2 log)
    as [[[tm config]|e] log'] eqn:HA.
  - pose proof (createDeployment_arguments_log this a1 a2 log) as Hl.
    rewrite HA in Hl. simpl in Hl. subst log'.
    destruct (parseSize (ram (resources config))) as [n|e] eqn:Hp;
      [destruct (n <=? SIX_MB_IN_BYTES) eqn:Hn|].
    + left. eexists. unfold Ignite.createDeployment, bind. rewrite HA.
      unfold lift. rewrite Hp, Hn. reflexivity.
    + right. exists (create_deployment_request config (Some (team_query tm))).
      split; [reflexivity|].
      unfold Ignite.createDeployment, bind. rewrite HA.
      unfold lift. rewrite Hp, Hn.
      unfold Client.post, Client.dispatch, read_response, create_deployment_request.
      destruct (server log _); reflexivity.
    + left. eexists. unfold Ignite.createDeployment, bind. rewrite HA.
      unfold lift. rewrite Hp. reflexivity.
  - left. exists e. apply (createDeployment_arguments_fail _ _ _ _ _ _ _ _ HA).
Qed.

Lemma call_bound_settles (key : option string) (hop : Hop.t) (entry : string)
    (body : BaseSDK -> Call Json) (log : list Request) :
  (forall this, settles_in_one_step server key (body this) log) ->
  settles_in_one_step server key (Hop.call_bound hop entry body) log.
Proof.
  intros Hbody. unfold Hop.call_bound.
  destruct (assoc entry (Hop.facade hop)) as [b|]; [|left; eexists; reflexivity].
  destruct (Hop.this_arg b); try (left; eexists; reflexivity). apply Hbody.
Qed.

Lemma forget_call_bound (hop : Hop.t) (entry : string) (body : BaseSDK -> Call unit) :
  Hop.forget (Hop.call_bound hop entry body)
  = Hop.call_bound hop entry (fun this => Hop.forget (body this)).
Proof.
  unfold Hop.call_bound.
  destruct (assoc entry (Hop.facade hop)) as [b|]; [|reflexivity].
  destruct (Hop.this_arg b); reflexivity.
Qed.

(** Every operation of the facade, on any object, either throws with
    nothing sent or sends one well-addressed request and reads the
    answer to it. *)
Lemma perform_settles (hop : Hop.t) (c : Hop.FacadeCall) (log : list Request) :
  settles_in_one_step server (response_member c)
    (Hop.perform validateId parseSize server hop c) log.
Proof.
  destruct c; simpl; try rewrite forget_call_bound;
    try (apply call_bound_settles; intros this).
  - apply createDeployment_settles.
  - right. eexists. split; [|apply dispatch_await]. reflexivity.
  - apply getAllDeployments_settles.
  - apply getDeployment_settles.
  - right. eexists. split; [|apply dispatch_read]. reflexivity.
  - right. eexists. split; [|apply dispatch_read]. reflexivity.
  - right. eexists. split; [|apply dispatch_await]. reflexivity.
  - right. eexists. split; [|apply dispatch_read]. reflexivity.
  - right. eexists. split; [|apply dispatch_await]. reflexivity.
  - right. eexists. split; [|apply dispatch_await]. reflexivity.
Qed.

End OneStep.

(** ** What follows for single operations and for sessions *)

(** X2. When the transport fails the request an operation has sent,
    the operation throws the exception of the transport, unchanged. *)
Theorem transport_exception_surfaces :
  forall validateId parseSize server hop c log outcome r e,
    Hop.perform validateId parseSize server hop c log = (outcome, (log ++ [r])%list) ->
    server log r = Thrown e ->
    outcome = Thrown e.
Proof.
  intros validateId parseSize server hop c log outcome r e Hrun Hfail.
  destruct (perform_settles validateId parseSize server hop c log)
    as [[e' He]|[r' [_ Hr]]]; rewrite Hrun in *.
  - inversion He as [[Ho Hl]]. exfalso. exact (log_grows _ _ Hl).
  - inversion Hr as [[Ho Hl]]. apply app_inv_head in Hl. inversion Hl. subst r'.
    rewrite Hfail. reflexivity.
Qed.

(** X3. When the transport answers the request of an operation with an
    object, the operation returns the member it reads from the answer,
    [undefined] when the object has no such member, and [undefined]
    for the operations that only await the call. *)
Theorem response_member_returned :
  forall validateId parseSize server hop c log outcome r fields,
    Hop.perform validateId parseSize server hop c log = (outcome, (log ++ [r])%list) ->
    server log r = Returned (JObject fields) ->
    outcome = Returned match response_member c with
                       | Some k => match assoc k fields with
                                   | Some v => v
                                   | None => JUndefined
                                   end
                       | None => JUndefined
                       end.
Proof.
  intros validateId parseSize server hop c log outcome r fields Hrun Hanswer.
  destruct (perform_settles validateId parseSize server hop c log)
    as [[e' He]|[r' [_ Hr]]]; rewrite Hrun in *.
  - inversion He as [[Ho Hl]]. exfalso. exact (log_grows _ _ Hl).
  - inversion Hr as [[Ho Hl]]. apply app_inv_head in Hl. inversion Hl. subst r'.
    rewrite Hanswer. unfold read_response, destructure.
    destruct (response_member c) as [k|]; [destruct (assoc k fields)|]; reflexivity.
Qed.

(** X4. Against a transport that answers every request with an object,
    an operation that throws has sent nothing: its exception is one of
    the checks made before the request. *)
Theorem exception_means_nothing_sent :
  forall validateId parseSize server hop c log e,
    (forall l r, exists fields, server l r = Returned (JObject fields)) ->
    fst (Hop.perform validateId parseSize server hop c log) = Thrown e ->
    snd (Hop.perform validateId parseSize server hop c log) = log.
Proof.
  intros validateId parseSize server hop c log e Hobjects Hthrown.
  destruct (perform_settles validateId parseSize server hop c log)
    as [[e' He]|[r [_ Hr]]].
  - rewrite He. reflexivity.
  - exfalso. rewrite Hr in Hthrown. simpl in Hthrown.
    destruct (Hobjects log r) as [fields Hf]. rewrite Hf in Hthrown.
    unfold read_response, destructure in Hthrown.
    destruct (response_member c) as [k|]; [destruct (assoc k fields)|]; discriminate.
Qed.

(** X5. Every request a session sends supplies a value for each
    placeholder of its path template. *)
Theorem session_requests_well_addressed :
  forall validateId parseSize server hop cs,
    forallb well_addressed (snd (Hop.run validateId parseSize server (hop, []) cs)) = true.
Proof.
  intros validateId parseSize server hop cs.
  assert (H : forall log, forallb well_addressed log = true ->
                forallb well_addressed
                  (snd (Hop.run validateId parseSize server (hop, log) cs)) = true).
  { induction cs as [|c cs IH]; intros log Hlog; [exact Hlog|].
    unfold Hop.run in *. simpl. unfold Hop.step at 2. simpl. apply IH.
    destruct (perform_settles validateId parseSize server hop c log)
      as [[e He]|[r [Hw Hr]]].
    - rewrite He. exact Hlog.
    - rewrite Hr. simpl. rewrite forallb_app, Hlog. simpl. rewrite Hw. reflexivity. }
  apply H. reflexivity.
Qed.


(** ** The schemes and the two classes *)

(** X7. The methods of [src/sdks/ignite.ts] that look at the scheme
    treat [bearer] and [pat] alike: the same arguments give the same
    requests and the same outcome. *)
Theorem bearer_and_pat_alike :
  forall validateId parseSize server base cred,
    (forall teamId,
        Ignite.getAllDeployments server (sdk_of bearer base cred) teamId
        = Ignite.getAllDeployments server (sdk_of pat base cred) teamId)
    /\ (forall a1 a2,
          Ignite.createDeployment parseSize server (sdk_of bearer base cred) a1 a2
          = Ignite.createDeployment parseSize server (sdk_of pat base cred) a1 a2)
    /\ (forall a1 a2,
          Ignite.getDeployment validateId server (sdk_of bearer base cred) a1 a2
          = Ignite.getDeployment validateId server (sdk_of pat base cred) a1 a2).
Proof.
  intros validateId parseSize server base cred. split; [|split].
  - intros teamId. unfold Ignite.getAllDeployments. reflexivity.
  - intros a1 a2. unfold Ignite.createDeployment, Ignite.createDeployment_arguments.
    destruct a1 as [id|config]; [destruct a2 as [config|]|]; reflexivity.
  - intros a1 a2. unfold Ignite.getDeployment, Ignite.getDeployment_arguments.
    destruct (truthy a1); [destruct (truthy_value a2)|]; reflexivity.
Qed.

(** X8. [createDeployment] of the earlier class and of
    [src/sdks/ignite.ts] agree on every scheme and every argument shape:
    both throw the same exception with nothing sent, or both send a
    POST of the same path, body and query parameters. *)
Theorem createDeployment_classes_agree :
  forall parseSize server tag base cred a1 a2 log,
    (exists e,
        Ignite.createDeployment parseSize server (sdk_of tag base cred) a1 a2 log
        = (Thrown e, log)
        /\ EarlyIgnite.createDeployment parseSize server (early_of tag base cred) a1 a2 log
           = (Thrown e, log))
    \/ (exists r1 r2,
          dispatches_only
            (Ignite.createDeployment parseSize server (sdk_of tag base cred) a1 a2) log r1
          /\ dispatches_only
               (EarlyIgnite.createDeployment parseSize server (early_of tag base cred) a1 a2)
               log r2
          /\ method r1 = POST /\ method r2 = POST
          /\ path r1 = path r2 /\ body r1 = body r2
          /\ parameters_of r1 = parameters_of r2).
Proof.
  intros parseSize server tag base cred a1 a2 log.
  assert (Hsent : forall tm config n,
             parseSize (ram (resources config)) = Returned n ->
             (n <=? SIX_MB_IN_BYTES) = false ->
             Ignite.createDeployment_arguments (sdk_of tag base cred) a1 a2 log
             = (Returned (tm, config), log) ->
             EarlyIgnite.createDeployment_arguments (early_of tag base cred) a1 a2 log
             = (Returned (tm, config), log) ->
             exists r1 r2,
               dispatches_only
                 (Ignite.createDeployment parseSize server (sdk_of tag base cred) a1 a2)
                 log r1
               /\ dispatches_only
                    (EarlyIgnite.createDeployment parseSize server
                       (early_of tag base cred) a1 a2) log r2
               /\ method r1 = POST /\ method r2 = POST
               /\ path r1 = path r2 /\ body r1 = body r2
               /\ parameters_of r1 = parameters_of r2).
  { intros tm config n Hp Hn H1 H2.
    exists (create_deployment_request config (Some (team_query tm))).
    exists (create_deployment_request config (EarlyIgnite.team_query_or_undefined tm)).
    split; [|split].
    - unfold dispatches_only, Ignite.createDeployment, bind. rewrite H1.
      unfold lift. rewrite Hp, Hn. unfold Client.post, Client.dispatch.
      destruct (server log _); reflexivity.
    - unfold dispatches_only, EarlyIgnite.createDeployment, bind. rewrite H2.
      unfold lift. rewrite Hp, Hn. unfold Client.post, Client.dispatch.
      destruct (server log _); reflexivity.
    - repeat split. unfold parameters_of. simpl.
      destruct tm as [id|]; simpl; [destruct (truthy id)|]; reflexivity. }
  assert (Hlocal : forall tm config,
             Ignite.createDeployment_arguments (sdk_of tag base cred) a1 a2 log
             = (Returned (tm, config), log) ->
             EarlyIgnite.createDeployment_arguments (early_of tag base cred) a1 a2 log
             = (Returned (tm, config), log) ->
             (forall n, parseSize (ram (resources config)) = Returned n ->
                        (n <=? SIX_MB_IN_BYTES) = false -> False) ->
             exists e,
               Ignite.createDeployment parseSize server (sdk_of tag base cred) a1 a2 log
               = (Thrown e, log)
               /\ EarlyIgnite.createDeployment parseSize server (early_of tag base cred)
                    a1 a2 log = (Thrown e, log)).
  { intros tm config H1 H2 Hno.
    unfold Ignite.createDeployment, EarlyIgnite.createDeployment, bind.
    rewrite H1, H2. unfold lift.
    destruct (parseSize (ram (resources config))) as [n|e] eqn:Hp.
    - destruct (n <=? SIX_MB_IN_BYTES) eqn:Hn.
      + eexists. split; reflexivity.
      + exfalso. exact (Hno n eq_refl Hn).
    - eexists. split; reflexivity. }
  destruct a1 as [id|config]; [destruct a2 as [config|]|]; destruct tag;
    try (left; eexists; split; reflexivity).
  - destruct (parseSize (ram (resources config))) as [n|e] eqn:Hp;
      [destruct (n <=? SIX_MB_IN_BYTES) eqn:Hn|].
    + left. apply (Hlocal (Some id) config eq_refl eq_refl). intros. congruence.
    + right. exact (Hsent (Some id) config n Hp Hn eq_refl eq_refl).
    + left. apply (Hlocal (Some id) config eq_refl eq_refl). intros. congruence.
  - destruct (parseSize (ram (resources config))) as [n|e] eqn:Hp;
      [destruct (n <=? SIX_MB_IN_BYTES) eqn:Hn|].
    + left. apply (Hlocal (Some id) config eq_refl eq_refl). intros. congruence.
    + right. exact (Hsent (Some id) config n Hp Hn eq_refl eq_refl).
    + left. apply (Hlocal (Some id) config eq_refl eq_refl). intros. congruence.
  - destruct (parseSize (ram (resources config))) as [n|e] eqn:Hp;
      [destruct (n <=? SIX_MB_IN_BYTES) eqn:Hn|].
    + left. apply (Hlocal None config eq_refl eq_refl). intros. congruence.
    + right. exact (Hsent None config n Hp Hn eq_refl eq_refl).
    + left. apply (Hlocal None config eq_refl eq_refl). intros. congruence.
Qed.

(** X9. [createDeployment] checks the shape of its arguments before it
    parses the RAM size: on a shape that does not go with the scheme
    the exception is the same whatever [parseSize] does, and on a
    matching shape an exception of [parseSize] is thrown on, with
    nothing sent. *)
Theorem createDeployment_shape_checked_first :
  (forall tag base cred a1 a2 log,
      config_comes_alone a1 a2 ->
      shape_matches tag a1 a2 = false ->
      exists e, forall parseSize server,
        Ignite.createDeployment parseSize server (sdk_of tag base cred) a1 a2 log
        = (Thrown e, log))
  /\ (forall parseSize server tag base cred a1 a2 config e log,
        shape_matches tag a1 a2 = true ->
        config_argument a1 a2 = Some config ->
        parseSize (ram (resources config)) = Thrown e ->
        Ignite.createDeployment parseSize server (sdk_of tag base cred) a1 a2 log
        = (Thrown e, log)).
Proof.
  split.
  - intros tag base cred a1 a2 log Halone Hshape.
    destruct a1 as [id|config]; [destruct a2 as [config|]|];
      simpl in Halone; subst; destruct tag; simpl in Hshape; try discriminate;
      eexists; intros parseSize server; reflexivity.
  - intros parseSize server tag base cred a1 a2 config e log Hs Hc Hp.
    pose proof (createDeployment_after_arguments parseSize server _ _ _ _ _ _
                  (createDeployment_matching_shape tag base cred a1 a2 config log Hs Hc))
      as Hafter.
    rewrite Hp in Hafter. exact Hafter.
Qed.

(** ** Empty strings among the arguments *)

(** X10. [getDeployment] with an empty first argument throws under
    every scheme, [sk] included, with the message about bearer and PAT;
    an empty second argument counts as none, so that under [sk] a call
    with a first argument and an empty second one looks the first
    argument up as a name or ID. *)
Theorem getDeployment_empty_arguments :
  forall validateId server,
    (forall this a2 log,
        Ignite.getDeployment validateId server this "" a2 log
        = (Thrown "Team ID is required for bearer or PAT authorization", log))
    /\ (forall this a1,
          Ignite.getDeployment validateId server this a1 (Some "")
          = Ignite.getDeployment validateId server this a1 None)
    /\ (forall base cred t log,
          t <> "" ->
          dispatches_only
            (Ignite.getDeployment validateId server (sdk_of sk base cred) t (Some "")) log
            (if validateId t deployment then get_by_id_request None t
             else search_by_name_request t)).
Proof.
  intros validateId server. split; [|split].
  - intros this a2 log. reflexivity.
  - intros this a1. reflexivity.
  - intros base cred t log Ht. apply truthy_nonempty in Ht.
    unfold dispatches_only, Ignite.getDeployment, Ignite.getDeployment_arguments, bind.
    simpl. rewrite Ht. simpl. apply getDeployment_lookup_log.
Qed.

(** X11. With the empty string in the place of the team ID,
    [getAllDeployments] behaves as without a team ID: under [bearer]
    and [pat] it throws, under [sk] it dispatches the GET without a
    [team] parameter. *)
Theorem getAllDeployments_empty_team_id :
  forall server tag base cred log,
    match tag with
    | sk =>
        dispatches_only
          (Ignite.getAllDeployments server (sdk_of tag base cred) (Some "")) log
          (list_deployments_request (Some []))
    | _ =>
        Ignite.getAllDeployments server (sdk_of tag base cred) (Some "") log
        = (Thrown "Team ID is required for Bearer or PAT authorization", log)
    end.
Proof.
  intros server tag base cred log. destruct tag; try reflexivity.
  unfold dispatches_only, Ignite.getAllDeployments, Client.get. simpl.
  apply dispatch_destructure_log.
Qed.

(** X12. Under [bearer] and [pat], [getDeployment] puts the team ID in
    the request only when it looks up by ID: the search by name carries
    no [team] parameter. *)
Theorem getDeployment_team_sent_by_id_only :
  forall validateId server tag base cred t s log,
    tag <> sk -> t <> "" -> s <> "" -> validateId t team = true ->
    exists r,
      dispatches_only
        (Ignite.getDeployment validateId server (sdk_of tag base cred) t (Some s)) log r
      /\ assoc "team" (parameters_of r)
         = if validateId s deployment then Some t else None.
Proof.
  intros validateId server tag base cred t s log Htag Ht Hs Hv.
  apply truthy_nonempty in Ht. apply truthy_nonempty in Hs.
  exists (if validateId s deployment then get_by_id_request (Some t) s
          else search_by_name_request s).
  split.
  - unfold dispatches_only, Ignite.getDeployment, Ignite.getDeployment_arguments,
      Ignite.assertId, bind.
    simpl. rewrite Ht, Hs, Hv.
    destruct tag; try congruence; simpl; apply getDeployment_lookup_log.
  - destruct (validateId s deployment); unfold parameters_of; simpl;
      [rewrite Ht|]; reflexivity.
Qed.

(** ** Requests do not depend on the transport *)

Section Stateless.

Variable validateId : string -> IdPrefix -> bool.
Variable parseSize : string -> Outcome Z.

Lemma sends_one_read (r : Request) (k : string) :
  sends (fun server =>
           response <- Client.dispatch server r ;; lift (destructure k response)) [r].
Proof. intros server log. apply dispatch_destructure_log. Qed.

Lemma sends_one_await (r : Request) :
  sends (fun server => Hop.forget (Client.dispatch server r ;;; ret tt)) [r].
Proof.
  intros server log. rewrite forget_log. apply dispatch_discard_log.
Qed.

Lemma getAllDeployments_sends (this : Ignite.t) (teamId : option string) :
  exists sent, sends (fun server => Ignite.getAllDeployments server this teamId) sent.
Proof.
  unfold Ignite.getAllDeployments.
  destruct (negb (is_sk (authType (client this))) && negb (truthy_opt teamId)).
  - exists []. intros server log. rewrite app_nil_r. reflexivity.
  - destruct (is_sk (authType (client this)) && truthy_opt teamId).
    + exists []. intros server log. rewrite app_nil_r. reflexivity.
    + eexists. unfold Client.get. apply sends_one_read.
Qed.

Lemma getDeployment_sends (this : Ignite.t) (a1 : string) (a2 : option string) :
  exists sent,
    sends (fun server => Ignite.getDeployment validateId server this a1 a2) sent.
Proof.
  assert (Hlookup : forall tm name,
             exists sent,
               sends (fun server => Ignite.getDeployment_lookup validateId server tm name)
                 sent).
  { intros tm name. unfold Ignite.getDeployment_lookup, Client.get.
    destruct (validateId name deployment); eexists; apply sends_one_read. }
  unfold Ignite.getDeployment, Ignite.getDeployment_arguments, Ignite.assertId.
  destruct (truthy a1);
    [|exists []; intros server log; rewrite app_nil_r; reflexivity].
  destruct (truthy_value a2) as [name|]; destruct (is_sk (authType (client this)));
    simpl; try (exists []; intros server log; rewrite app_nil_r; reflexivity).
  - destruct (validateId a1 team).
    + destruct (Hlookup (Some a1) name) as [sent Hs]. exists sent.
      intros server log. exact (Hs server log).
    + exists []. intros server log. rewrite app_nil_r. reflexivity.
  - destruct (Hlookup None a1) as [sent Hs]. exists sent.
    intros server log. exact (Hs server log).
Qed.

Lemma createDeployment_sends (this : Ignite.t) (a1 : ConfigOrTeam)
    (a2 : option DeploymentConfig) :
  exists sent,
    sends (fun server => Ignite.createDeployment parseSize server this a1 a2) sent.
Proof.
  assert (Hrest : forall tm config,
             exists sent,
               sends (fun server =>
                        size <- lift (parseSize (ram (resources config))) ;;
                        if size <=? SIX_MB_IN_BYTES then
                          throw "Allocated memory must be greater than 6MB when creating a deployment."
                        else
                          response <- Client.post server "/v1/ignite/deployments"
                                        (Some (BodyConfig config)) (Some (team_query tm)) ;;
                          lift (destructure "deployment" response)) sent).
  { intros tm config. unfold bind at 1. unfold lift at 1.
    destruct (parseSize (ram (resources config))) as [n|e];
      [destruct (n <=? SIX_MB_IN_BYTES)|].
    - exists []. intros server log. rewrite app_nil_r. reflexivity.
    - eexists. unfold Client.post. apply sends_one_read.
    - exists []. intros server log. rewrite app_nil_r. reflexivity. }
  unfold Ignite.createDeployment, Ignite.createDeployment_arguments.
  destruct a1 as [id|config]; [destruct a2 as [config|]|];
    destruct (authType (client this)); simpl;
    try (exists []; intros server log; rewrite app_nil_r; reflexivity).
  - destruct (Hrest (Some id) config) as [sent Hs]. exists sent.
    intros server log. exact (Hs server log).
  - destruct (Hrest (Some id) config) as [sent Hs]. exists sent.
    intros server log. exact (Hs server log).
  - destruct (Hrest None config) as [sent Hs]. exists sent.
    intros server log. exact (Hs server log).
Qed.

Lemma call_bound_sends (hop : Hop.t) (entry : string)
    (body : (list Request -> Request -> Outcome Json) -> BaseSDK -> Call Json) :
  (forall this, exists sent, sends (fun server => body server this) sent) ->
  exists sent, sends (fun server => Hop.call_bound hop entry (body server)) sent.
Proof.
  intros Hbody. unfold Hop.call_bound.
  destruct (assoc entry (Hop.facade hop)) as [b|];
    [|exists []; intros server log; rewrite app_nil_r; reflexivity].
  destruct (Hop.this_arg b);
    try (exists []; intros server log; rewrite app_nil_r; reflexivity).
  apply Hbody.
Qed.

Lemma call_bound_await_sends (hop : Hop.t) (entry : string)
    (body : (list Request -> Request -> Outcome Json) -> BaseSDK -> Call unit) :
  (forall this, exists sent, sends (fun server => Hop.forget (body server this)) sent) ->
  exists sent,
    sends (fun server => Hop.forget (Hop.call_bound hop entry (body server))) sent.
Proof.
  intros Hbody. unfold Hop.call_bound.
  destruct (assoc entry (Hop.facade hop)) as [b|];
    [|exists []; intros server log; rewrite app_nil_r; reflexivity].
  destruct (Hop.this_arg b);
    try (exists []; intros server log; rewrite app_nil_r; reflexivity).
  apply Hbody.
Qed.

Lemma perform_sends (hop : Hop.t) (c : Hop.FacadeCall) :
  exists sent,
    (length sent <= 1)%nat
    /\ sends (fun server => Hop.perform validateId parseSize server hop c) sent.
Proof.
  assert (Hshort : forall sent,
             sends (fun server => Hop.perform validateId parseSize server hop c) sent ->
             (length sent <= 1)%nat).
  { intros sent Hs.
    destruct (perform_settles validateId parseSize server_empty hop c [])
      as [[e He]|[r [_ Hr]]]; specialize (Hs server_empty []); simpl in Hs.
    - rewrite He in Hs. simpl in Hs. subst sent. apply le_0_n.
    - rewrite Hr in Hs. simpl in Hs. subst sent. apply le_n. }
  assert (H : exists sent,
             sends (fun server => Hop.perform validateId parseSize server hop c) sent).
  { destruct c; simpl.
    - apply (call_bound_sends hop _
               (fun server this => Ignite.createDeployment parseSize server this _ _)).
      intros this. apply createDeployment_sends.
    - apply (call_bound_await_sends hop _
               (fun server this => Ignite.deleteDeployment server this _)).
      intros this. eexists. unfold Ignite.deleteDeployment, Client.delete.
      apply sends_one_await.
    - apply (call_bound_sends hop _
               (fun server this => Ignite.getAllDeployments server this _)).
      intros this. apply getAllDeployments_sends.
    - apply (call_bound_sends hop _
               (fun server this => Ignite.getDeployment validateId server this _ _)).
      intros this. apply getDeployment_sends.
    - apply (call_bound_sends hop _
               (fun server this => Ignite.getContainers server this _)).
      intros this. eexists. unfold Ignite.getContainers, Client.get.
      apply sends_one_read.
    - apply (call_bound_sends hop _
               (fun server this => Ignite.createContainer server this _)).
      intros this. eexists. unfold Ignite.createContainer, Client.post.
      apply sends_one_read.
    - apply (call_bound_await_sends hop _
               (fun server this => Ignite.deleteContainer server this _)).
      intros this. eexists. unfold Ignite.deleteContainer, Client.delete.
      apply sends_one_await.
    - apply (call_bound_sends hop _
               (fun server this => Ignite.getLogs server this _)).
      intros this. eexists. unfold Ignite.getLogs, Client.get.
      apply sends_one_read.
    - eexists. unfold Hop.containers_stop, Ignite.updateContainerState, Client.patch.
      apply sends_one_await.
    - eexists. unfold Hop.containers_start, Ignite.updateContainerState, Client.patch.
      apply sends_one_await. }
  destruct H as [sent Hs]. exists sent. split; [apply Hshort; exact Hs | exact Hs].
Qed.

(** X1. The requests a session sends are fixed by the object and the
    operations: they are the same whatever the transport answers and
    whatever was sent before, at most one per operation. *)
Theorem session_requests_independent_of_transport :
  forall hop cs,
  exists sent,
    (length sent <= length cs)%nat
    /\ forall server log,
         snd (Hop.run validateId parseSize server (hop, log) cs) = (log ++ sent)%list.
Proof.
  intros hop cs. induction cs as [|c cs IH].
  - exists []. split; [apply le_n|]. intros server log. simpl.
    rewrite app_nil_r. reflexivity.
  - destruct IH as [rest [Hlen Hrest]].
    destruct (perform_sends hop c) as [first [Hone Hfirst]].
    exists (first ++ rest)%list. split.
    + rewrite length_app. simpl. lia.
    + intros server log. unfold Hop.run in *. simpl. unfold Hop.step at 2. simpl.
      rewrite (Hfirst server log), Hrest, app_assoc. reflexivity.
Qed.

End Stateless.

(** ** The further properties at sample inputs *)

Lemma transport_exception_surfaces_witness :
  Hop.perform validateId_prefix parseSize_units (server_failing "NetworkError")
    sample_hop (Hop.containers_getLogs "container_abc123") []
  = (Thrown "NetworkError",
     ([] ++ [ {| method := GET;
                 path := "/v1/ignite/containers/:container_id/logs";
                 body := None;
                 query := Some [("container_id", "container_abc123")] |} ])%list)
  /\ server_failing "NetworkError" []
       {| method := GET;
          path := "/v1/ignite/containers/:container_id/logs";
          body := None;
          query := Some [("container_id", "container_abc123")] |}
     = Thrown "NetworkError"
  /\ @Thrown Json "NetworkError" = Thrown "NetworkError".
Proof.
  split; [reflexivity|]. split; [reflexivity|].
  apply (transport_exception_surfaces validateId_prefix parseSize_units
           (server_failing "NetworkError") sample_hop
           (Hop.containers_getLogs "container_abc123") [] (Thrown "NetworkError")
           {| method := GET;
              path := "/v1/ignite/containers/:container_id/logs";
              body := None;
              query := Some [("container_id", "container_abc123")] |}
           "NetworkError"); reflexivity.
Defined.

Lemma response_member_returned_witness :
  Hop.perform validateId_prefix parseSize_units
    (server_object [("logs", JArray [JString "started"])])
    sample_hop (Hop.containers_getLogs "container_abc123") []
  = (Returned (JArray [JString "started"]),
     ([] ++ [ {| method := GET;
                 path := "/v1/ignite/containers/:container_id/logs";
                 body := None;
                 query := Some [("container_id", "container_abc123")] |} ])%list)
  /\ Returned (JArray [JString "started"])
     = Returned match response_member (Hop.containers_getLogs "container_abc123") with
                | Some k =>
                    match assoc k [("logs", JArray [JString "started"])] with
                    | Some v => v
                    | None => JUndefined
                    end
                | None => JUndefined
                end.
Proof.
  split; [reflexivity|].
  apply (response_member_returned validateId_prefix parseSize_units
           (server_object [("logs", JArray [JString "started"])]) sample_hop
           (Hop.containers_getLogs "container_abc123") []
           (Returned (JArray [JString "started"]))
           {| method := GET;
              path := "/v1/ignite/containers/:container_id/logs";
              body := None;
              query := Some [("container_id", "container_abc123")] |}
           [("logs", JArray [JString "started"])]); reflexivity.
Defined.

Lemma exception_means_nothing_sent_witness :
  (forall l r, exists fields, server_empty l r = Returned (JObject fields))
  /\ fst (Hop.perform validateId_prefix parseSize_units server_empty sample_hop
            (Hop.deployments_getAll (Some "team_abc123")) [])
     = Thrown "Team ID is not required for secret authorization"
  /\ snd (Hop.perform validateId_prefix parseSize_units server_empty sample_hop
            (Hop.deployments_getAll (Some "team_abc123")) [])
     = [].
Proof.
  assert (Hobjects : forall l r, exists fields, server_empty l r = Returned (JObject fields))
    by (intros l r; exists []; reflexivity).
  split; [exact Hobjects|]. split; [reflexivity|].
  apply (exception_means_nothing_sent validateId_prefix parseSize_units server_empty
           sample_hop (Hop.deployments_getAll (Some "team_abc123")) []
           "Team ID is not required for secret authorization" Hobjects).
  reflexivity.
Defined.


Lemma list_deployments_agree_witness :
  (bearer = pat -> truthy_opt (Some "team_abc123") = true)
  /\ ((exists e,
         Ignite.getAllDeployments server_empty sample_bearer (Some "team_abc123") []
         = (Thrown e, [])
         /\ EarlyIgnite.getDeployments server_empty
              (early_of bearer sample_base "bearer_c2FtcGxl") (Some "team_abc123") []
            = (Thrown e, []))
      \/ (exists r1 r2,
            dispatches_only
              (Ignite.getAllDeployments server_empty sample_bearer (Some "team_abc123"))
              [] r1
            /\ dispatches_only
                 (EarlyIgnite.getDeployments server_empty
                    (early_of bearer sample_base "bearer_c2FtcGxl") (Some "team_abc123"))
                 [] r2
            /\ method r1 = method r2 /\ path r1 = path r2
            /\ parameters_of r1 = parameters_of r2)).
Proof.
  assert (Hpat : bearer = pat -> truthy_opt (Some "team_abc123") = true)
    by discriminate.
  split; [exact Hpat|].
  exact (list_deployments_agree server_empty bearer sample_base "bearer_c2FtcGxl"
           (Some "team_abc123") [] Hpat).
Defined.

Lemma createDeployment_shape_checked_first_witness :
  (config_comes_alone (IsTeam "team_abc123") (Some (config_with_ram "7x"))
   /\ shape_matches sk (IsTeam "team_abc123") (Some (config_with_ram "7x")) = false
   /\ exists e, forall parseSize server,
        Ignite.createDeployment parseSize server sample_sk
          (IsTeam "team_abc123") (Some (config_with_ram "7x")) []
        = (Thrown e, []))
  /\ (shape_matches sk (IsConfig (config_with_ram "7x")) None = true
      /\ parseSize_units "7x" = Thrown "Invalid size: 7x"
      /\ Ignite.createDeployment parseSize_units server_empty sample_sk
           (IsConfig (config_with_ram "7x")) None []
         = (Thrown "Invalid size: 7x", [])).
Proof.
  destruct createDeployment_shape_checked_first as [Hshape Hsize].
  split.
  - split; [exact I|]. split; [reflexivity|].
    apply (Hshape sk sample_base "sk_c2FtcGxl" (IsTeam "team_abc123")
             (Some (config_with_ram "7x")) []); [exact I | reflexivity].
  - split; [reflexivity|]. split; [reflexivity|].
    apply (Hsize parseSize_units server_empty sk sample_base "sk_c2FtcGxl"
             (IsConfig (config_with_ram "7x")) None (config_with_ram "7x")
             "Invalid size: 7x" []); reflexivity.
Defined.

Lemma getDeployment_empty_arguments_witness :
  "team_abc123" <> ""
  /\ dispatches_only
       (Ignite.getDeployment validateId_prefix server_empty sample_sk
          "team_abc123" (Some "")) []
       (search_by_name_request "team_abc123").
Proof.
  split; [discriminate|].
  destruct (getDeployment_empty_arguments validateId_prefix server_empty)
    as [_ [_ Hname]].
  apply (Hname sample_base "sk_c2FtcGxl" "team_abc123" []). discriminate.
Defined.

Lemma getDeployment_team_sent_by_id_only_witness :
  bearer <> sk /\ "team_abc123" <> "" /\ "my-app-name" <> ""
  /\ validateId_prefix "team_abc123" team = true
  /\ exists r,
       dispatches_only
         (Ignite.getDeployment validateId_prefix server_empty sample_bearer
            "team_abc123" (Some "my-app-name")) [] r
       /\ assoc "team" (parameters_of r) = None.
Proof.
  split; [discriminate|]. split; [discriminate|]. split; [discriminate|].
  split; [reflexivity|].
  apply (getDeployment_team_sent_by_id_only validateId_prefix server_empty bearer
           sample_base "bearer_c2FtcGxl" "team_abc123" "my-app-name" []);
    [discriminate | discriminate | discriminate | reflexivity].
Defined.
